(** * Card-key activation handlers: a shallow embedding

    The repository holds three revisions of one request handler that
    validates a card key against a D1 (SQLite) table and hands out a
    session cookie:

    - [Functions.onRequest]  : src/index.ts (functions/api/verify-password.js),
      16-character keys, the expiry stored in the row;
    - [WorkerLocal.fetch]    : first worker revision, 5x5 keys, expiry derived
      from [first_used_at], the branch clock is [Date.now()];
    - [WorkerStore.fetch]    : second worker revision, CORS headers added, the
      branch clock is read from the store.

    Handlers are written as programs over the effects they perform (a D1
    statement, [Date.now()], [crypto.randomUUID()]); [interp] runs one
    request alone, [pool_run] interleaves several requests at the
    granularity of their [await]s, [serve] runs requests one after
    another.

    Modelling notes.
    - Strings are byte strings.  Every pattern of the source accepts
      ASCII only, so byte length and UTF-16 length agree on accepted keys.
    - [strftime('%s','now')] is the store clock in epoch seconds,
      returned as text.  SQL expressions are evaluated by SQLite's rules:
      arithmetic and truth values convert text to a number, a comparison
      converts it only when the other operand is a column of numeric
      affinity, and otherwise an integer is less than any text.  The
      columns holding epoch seconds are declared INTEGER.
    - The key column is the primary key of [card_keys]: the table is a
      finite map from the key to the remaining columns.
    - D1 refuses to run a statement bound with a number of values other
      than its number of placeholders.
    - The module-level [corsHeaders] of the second worker revision is
      shadowed by the one [fetch] builds; the model has the latter.
    - [console.log] / [console.error] calls are diagnostics and omitted.
    - The [sha256] helper, which no handler calls, is modelled over the
      text encoder and the digest of the platform as parameters. *)

From stdpp Require Import gmap strings list.
From Stdlib Require Import ZArith String Ascii DecimalString Lia.
From Stdlib Require HexadecimalString.
From Stdlib.Strings Require Byte.

Local Open Scope string_scope.
Local Open Scope Z_scope.
Set Warnings "-register-all".

(** ** JSON values, requests, responses *)

Inductive Json : Type :=
| JNull
| JBool (b : bool)
| JNum (n : Z)
| JStr (s : string)
| JArr (items : list Json)
| JObj (fields : list (string * Json)).

(** Property read on a parsed object; [JSON.parse] keeps the last of
    several bindings of one name. *)
Fixpoint js_get (name : string) (fields : list (string * Json)) : option Json :=
  match fields with
  | [] => None
  | (k, v) :: rest =>
      match js_get name rest with
      | Some w => Some w
      | None => if String.eqb k name then Some v else None
      end
  end.

Record Request : Type := {
  method : string;
  (** [request.headers.get("Origin")] and the two pre-flight headers *)
  origin : option string;
  acr_method : option string;
  acr_headers : option string;
  (** [request.json()]: the parsed body, or the message of the error it
      rejects with *)
  body : string + Json
}.

Inductive Body : Type :=
| BodyNull
| BodyText (s : string)
| BodyJson (j : Json).

Record Response : Type := {
  status : Z;
  headers : list (string * string);
  payload : Body
}.

(** [Response.json(obj, {status})] *)
Definition Response_json (fields : list (string * Json)) (st : Z) : Response :=
  {| status := st;
     headers := [("content-type", "application/json")];
     payload := BodyJson (JObj fields) |}.

(** [new Response(JSON.stringify(obj), {headers})]: the status defaults to 200 *)
Definition Response_stringified (fields : list (string * Json))
    (hs : list (string * string)) : Response :=
  {| status := 200; headers := hs; payload := BodyJson (JObj fields) |}.

Definition response_field (name : string) (r : Response) : option Json :=
  match payload r with
  | BodyJson (JObj fields) => js_get name fields
  | _ => None
  end.

Definition code_of (r : Response) : option Json := response_field "code" r.
Definition valid_of (r : Response) : option Json := response_field "valid" r.
Definition expires_in_of (r : Response) : option Json := response_field "expires_in" r.

(** First header of a given name ([headers.get]) *)
Fixpoint header (name : string) (hs : list (string * string)) : option string :=
  match hs with
  | [] => None
  | (k, v) :: rest => if String.eqb k name then Some v else header name rest
  end.

(** Number to string, as a template literal prints an integer *)
Definition string_of_Z (z : Z) : string := NilZero.string_of_int (Z.to_int z).

(** The [Set-Cookie] value shared by the three revisions *)
Definition session_cookie (sessionToken : string) (maxAge : Z) : string :=
  "session=" +:+ sessionToken +:+
  "; Path=/; HttpOnly; Secure; SameSite=Strict; Max-Age=" +:+ string_of_Z maxAge.

(** ** Exceptions and zod *)

Record ZodIssue : Type := { issue_path : list string; issue_message : string }.

Inductive Exn : Type :=
| ZodError (errors : list ZodIssue)
| Error (message : string).

(** Type names zod reports for a received value *)
Definition zod_type_name (j : Json) : string :=
  match j with
  | JNull => "null"
  | JBool _ => "boolean"
  | JNum _ => "number"
  | JStr _ => "string"
  | JArr _ => "array"
  | JObj _ => "object"
  end.

(** [z.object({ cardKey: z.string()...checks })].parse(data): the checks
    of the string schema give the issues of a string value. *)
Definition parse_cardKey (checks : string -> list string) (data : Json) : Exn + string :=
  match data with
  | JObj fields =>
      match js_get "cardKey" fields with
      | None => inl (ZodError [ {| issue_path := ["cardKey"]; issue_message := "Required" |} ])
      | Some (JStr s) =>
          match checks s with
          | [] => inr s
          | msgs => inl (ZodError (map (fun m => {| issue_path := ["cardKey"]; issue_message := m |}) msgs))
          end
      | Some other =>
          inl (ZodError [ {| issue_path := ["cardKey"];
                             issue_message := "Expected string, received " +:+ zod_type_name other |} ])
      end
  | other =>
      inl (ZodError [ {| issue_path := [];
                         issue_message := "Expected object, received " +:+ zod_type_name other |} ])
  end.

(** The character class [[A-Z0-9]] *)
Definition upper_alnum (c : ascii) : bool :=
  (Ascii.leb "A" c && Ascii.leb c "Z") || (Ascii.leb "0" c && Ascii.leb c "9").

(** [[A-Z0-9]{n}] at the head of [s]: the rest of [s] after it *)
Fixpoint class_run (n : nat) (s : string) : option string :=
  match n with
  | O => Some s
  | S n' =>
      match s with
      | String c rest => if upper_alnum c then class_run n' rest else None
      | EmptyString => None
      end
  end.

Definition dash (s : string) : option string :=
  match s with
  | String "-" rest => Some rest
  | _ => None
  end.

(** [/^[A-Z0-9]{5}-[A-Z0-9]{5}-[A-Z0-9]{5}-[A-Z0-9]{5}-[A-Z0-9]{5}$/] *)
Definition group_dash (s : string) : option string :=
  match class_run 5 s with
  | Some rest => dash rest
  | None => None
  end.

Definition and_then (o : option string) (f : string -> option string) : option string :=
  match o with
  | Some rest => f rest
  | None => None
  end.

Definition grouped_pattern (s : string) : bool :=
  match and_then (and_then (and_then (and_then (group_dash s) group_dash) group_dash)
                   group_dash) (class_run 5) with
  | Some EmptyString => true
  | _ => false
  end.

(** [/^[A-Z0-9]+$/] *)
Fixpoint all_upper_alnum (s : string) : bool :=
  match s with
  | EmptyString => true
  | String c rest => upper_alnum c && all_upper_alnum rest
  end.

Definition flat_pattern (s : string) : bool :=
  match s with
  | EmptyString => false
  | _ => all_upper_alnum s
  end.

(** ** Programs over effects *)

Inductive Prog (Q : Type -> Type) (A : Type) : Type :=
| Ret (a : A)
| Throw (e : Exn)
| Await {X : Type} (q : Q X) (k : Exn + X -> Prog Q A)
| DateNow (k : Z -> Prog Q A)
| RandomUUID (k : string -> Prog Q A).

Arguments Ret {Q A} a.
Arguments Throw {Q A} e.
Arguments Await {Q A X} q k.
Arguments DateNow {Q A} k.
Arguments RandomUUID {Q A} k.

Fixpoint prog_bind {Q : Type -> Type} {A B : Type}
    (f : A -> Prog Q B) (p : Prog Q A) : Prog Q B :=
  match p with
  | Ret a => f a
  | Throw e => Throw e
  | Await q k => Await q (fun x => prog_bind f (k x))
  | DateNow k => DateNow (fun t => prog_bind f (k t))
  | RandomUUID k => RandomUUID (fun u => prog_bind f (k u))
  end.

#[global] Instance prog_mbind {Q : Type -> Type} : MBind (Prog Q) :=
  fun A B f p => prog_bind f p.

(** [try { p } catch (error) { h error }] *)
Fixpoint try_catch {Q : Type -> Type} {A : Type}
    (p : Prog Q A) (h : Exn -> Prog Q A) : Prog Q A :=
  match p with
  | Ret a => Ret a
  | Throw e => h e
  | Await q k => Await q (fun x => try_catch (k x) h)
  | DateNow k => DateNow (fun t => try_catch (k t) h)
  | RandomUUID k => RandomUUID (fun u => try_catch (k u) h)
  end.

Definition lift {Q : Type -> Type} {A : Type} (r : Exn + A) : Prog Q A :=
  match r with
  | inl e => Throw e
  | inr a => Ret a
  end.

(** [await stmt.first()] / [await stmt.run()]: a rejection is thrown
    where the promise is awaited. *)
Definition await {Q : Type -> Type} {X : Type} (q : Q X) : Prog Q X := Await q lift.

(** [Math.floor(Date.now() / 1000)] *)
Definition now_seconds {Q : Type -> Type} : Prog Q Z := DateNow (fun ms => Ret (ms / 1000)).

(** [crypto.randomUUID()] *)
Definition randomUUID {Q : Type -> Type} : Prog Q string := RandomUUID Ret.

(** [await request.json()] *)
Definition request_json {Q : Type -> Type} (request : Request) : Prog Q Json :=
  match body request with
  | inl msg => Throw (Error msg)
  | inr data => Ret data
  end.

(** ** The world a program runs in *)

(** What the environment answers at the instant an effect happens. *)
Record Instant : Type := {
  (** [strftime('%s','now')] inside a statement *)
  db_now : Z;
  (** the store rejects the statement with this message *)
  db_fault : option string;
  (** [Date.now()], in milliseconds *)
  js_now : Z;
  (** the identifier [crypto.randomUUID()] returns *)
  uuid : string
}.

(** The n-th effect of a request happens at instant [n] of its timeline. *)
Definition Timeline : Type := nat -> Instant.

(** A store engine executes a statement at a store time. *)
Class Engine (Q : Type -> Type) (T : Type) : Type :=
  exec : forall X : Type, Q X -> Z -> T -> (Exn + X) * T.

Arguments exec {Q T _ X} q t σ.

Section Semantics.
Context {Q : Type -> Type} {T : Type} `{!Engine Q T}.

Definition perform {X : Type} (q : Q X) (i : Instant) (σ : T) : (Exn + X) * T :=
  match db_fault i with
  | Some msg => (inl (Error msg), σ)
  | None => exec q (db_now i) σ
  end.

(** One request run to its end, alone. *)
Fixpoint interp {A : Type} (p : Prog Q A) (env : Timeline) (n : nat) (σ : T)
    : (Exn + A) * T :=
  match p with
  | Ret a => (inr a, σ)
  | Throw e => (inl e, σ)
  | Await q k =>
      let '(r, σ') := perform q (env n) σ in interp (k r) env (S n) σ'
  | DateNow k => interp (k (js_now (env n))) env (S n) σ
  | RandomUUID k => interp (k (uuid (env n))) env (S n) σ
  end.

(** One effect of a program, at one instant. *)
Definition step {A : Type} (p : Prog Q A) (i : Instant) (σ : T) : Prog Q A * T :=
  match p with
  | Await q k => let '(r, σ') := perform q i σ in (k r, σ')
  | DateNow k => (k (js_now i), σ)
  | RandomUUID k => (k (uuid i), σ)
  | _ => (p, σ)
  end.

Definition settled {A : Type} (p : Prog Q A) : option (Exn + A) :=
  match p with
  | Ret a => Some (inr a)
  | Throw e => Some (inl e)
  | _ => None
  end.

(** Requests in flight, interleaved: each entry of the schedule lets
    one of them perform its next effect. *)
Definition pool_step {A : Type} (ps : list (Prog Q A)) (s : nat * Instant) (σ : T)
    : list (Prog Q A) * T :=
  match ps !! s.1 with
  | Some p => let '(p', σ') := step p s.2 σ in (<[s.1 := p']> ps, σ')
  | None => (ps, σ)
  end.

Fixpoint pool_run {A : Type} (ps : list (Prog Q A)) (sched : list (nat * Instant)) (σ : T)
    : list (Prog Q A) * T :=
  match sched with
  | [] => (ps, σ)
  | s :: rest => let '(ps', σ') := pool_step ps s σ in pool_run ps' rest σ'
  end.

(** Requests served one after another. *)
Fixpoint serve {R : Type} (handler : R -> Prog Q Response) (calls : list (R * Timeline)) (σ : T)
    : list (Exn + Response) * T :=
  match calls with
  | [] => ([], σ)
  | (r, env) :: rest =>
      let '(out, σ') := interp (handler r) env 0%nat σ in
      let '(outs, σ'') := serve handler rest σ' in
      (out :: outs, σ'')
  end.
End Semantics.

(** Entries of a store's journal: one for each statement it executed. *)
Inductive DbEvent : Type :=
| Selected (key : string)
| ClockRead
| Updated (key : string).

(** The error D1 raises for a statement bound with too few or too many values *)
Definition wrong_bindings : string :=
  "D1_ERROR: Wrong number of parameter bindings for SQL query.".

(** ** SQLite values and operators *)

Module Sql.
(** Storage classes of the values the statements compute.  Their only
    text is what [strftime('%s', ...)] returns: the decimal digits of
    an integer. *)
Inductive value : Type :=
| Null
| Int (z : Z)
| Text (digits : Z).

Definition of_bool (b : bool) : value := Int (if b then 1 else 0).

(** A column declared INTEGER, read from a row *)
Definition column (v : option Z) : value :=
  match v with
  | Some z => Int z
  | None => Null
  end.

(** [strftime('%s', 'now')] at store time [t] *)
Definition strftime_s (t : Z) : value := Text t.

(** The number a value stands for in arithmetic and as a truth value:
    text is converted to the number it spells. *)
Definition number (v : value) : option Z :=
  match v with
  | Null => None
  | Int z => Some z
  | Text z => Some z
  end.

Definition is_null (v : value) : value :=
  of_bool (match v with Null => true | _ => false end).

Definition add (a b : value) : value :=
  match number a, number b with
  | Some x, Some y => Int (x + y)
  | _, _ => Null
  end.

Definition sub (a b : value) : value :=
  match number a, number b with
  | Some x, Some y => Int (x - y)
  | _, _ => Null
  end.

(** [a > b] on the values as they are, neither operand having an
    affinity: NULL compares to nothing, integers compare as numbers,
    texts as strings, and an integer is less than any text. *)
Definition gt (a b : value) : value :=
  match a, b with
  | Null, _ => Null
  | _, Null => Null
  | Int x, Int y => of_bool (x >? y)
  | Int _, Text _ => of_bool false
  | Text _, Int _ => of_bool true
  | Text x, Text y => of_bool (String.ltb (string_of_Z y) (string_of_Z x))
  end.

(** [a > b] where [a] is a column declared INTEGER: its numeric
    affinity is applied to [b] before the comparison. *)
Definition column_gt (a b : value) : value :=
  gt a (match b with Text z => Int z | _ => b end).

(** Three-valued OR *)
Definition or (a b : value) : value :=
  match number a, number b with
  | Some x, Some y => of_bool (negb (x =? 0) || negb (y =? 0))
  | Some x, None => if x =? 0 then Null else of_bool true
  | None, Some y => if y =? 0 then Null else of_bool true
  | None, None => Null
  end.

(** A row is kept when the WHERE expression is true. *)
Definition holds (v : value) : bool :=
  match number v with
  | Some x => negb (x =? 0)
  | None => false
  end.
End Sql.

(** ** src/index.ts *)

Module Functions.

(** [interface CardKey]; the [card_key] column is the key of the table. *)
Record CardKey : Type := {
  expires_at : Z;
  is_used : bool;
  activated_at : option Z
}.

(** The table, and a journal of the statements executed on it (kept for
    the properties only; no statement reads it). *)
Record DB : Type := {
  card_keys : gmap string CardKey;
  journal : list DbEvent
}.

(** The two prepared statements with the values bound to them. *)
Inductive Query : Type -> Type :=
| (** [SELECT * FROM card_keys WHERE card_key = ?
      AND expires_at > strftime('%s', 'now')], [.bind(cardKey).first()] *)
  SelectCard (cardKey : string) : Query (option CardKey)
| (** [UPDATE card_keys SET is_used = TRUE, activated_at = ?, expires_at = ?
      WHERE card_key = ?], [.bind(now, now + (24 * 60 * 60), cardKey).run()] *)
  ActivateCard (activated : Z) (expires : Z) (cardKey : string) : Query unit.

Definition placeholders {X : Type} (q : Query X) : nat :=
  match q with
  | SelectCard _ => 1
  | ActivateCard _ _ _ => 3
  end.

Definition bound {X : Type} (q : Query X) : nat :=
  match q with
  | SelectCard _ => 1
  | ActivateCard _ _ _ => 3
  end.

Definition logged (ev : DbEvent) (σ : DB) : DB :=
  {| card_keys := card_keys σ; journal := journal σ ++ [ev] |}.

(** [expires_at > strftime('%s', 'now')]: a column against text *)
Definition not_expired (row : CardKey) (t : Z) : bool :=
  Sql.holds (Sql.column_gt (Sql.Int (expires_at row)) (Sql.strftime_s t)).

Definition run_statement {X : Type} (q : Query X) (t : Z) (σ : DB) : (Exn + X) * DB :=
  match q in Query X return (Exn + X) * DB with
  | SelectCard cardKey =>
      (inr (match card_keys σ !! cardKey with
            | Some row => if not_expired row t then Some row else None
            | None => None
            end),
       logged (Selected cardKey) σ)
  | ActivateCard activated expires cardKey =>
      (inr tt,
       {| card_keys :=
            alter (fun _ => {| expires_at := expires; is_used := true;
                               activated_at := Some activated |}) cardKey (card_keys σ);
          journal := journal σ ++ [Updated cardKey] |})
  end.

(** D1 runs a statement only when as many values are bound as it has
    placeholders. *)
#[global] Instance engine : Engine Query DB := fun X q t σ =>
  if Nat.eqb (bound q) (placeholders q) then run_statement q t σ
  else (inl (Error wrong_bindings), σ).

(** [z.string().length(16).regex(/^[A-Z0-9]+$/)] *)
Definition cardKey_checks (s : string) : list string :=
  (if Nat.eqb (String.length s) 16 then [] else ["String must contain exactly 16 character(s)"])
  ++ (if flat_pattern s then [] else ["Invalid"]).

Definition CardValidationSchema_parse (data : Json) : Exn + string :=
  parse_cardKey cardKey_checks data.

Definition method_not_allowed : Response :=
  {| status := 405;
     headers := [("content-type", "text/plain;charset=UTF-8")];
     payload := BodyText "请使用POST方法" |}.

Definition invalid_card : Response :=
  Response_json [("valid", JBool false); ("code", JStr "INVALID_CARD");
                 ("message", JStr "卡密无效或已过期")] 200.

Definition card_expired : Response :=
  Response_json [("valid", JBool false); ("code", JStr "CARD_EXPIRED");
                 ("message", JStr "卡密已过期")] 200.

Definition session_renewed (sessionToken : string) (remainingTime : Z) : Response :=
  Response_stringified
    [("valid", JBool true); ("code", JStr "SESSION_RENEWED"); ("expires_in", JNum remainingTime)]
    [("Content-Type", "application/json");
     ("Set-Cookie", session_cookie sessionToken remainingTime)].

Definition activation_success (sessionToken : string) : Response :=
  Response_stringified
    [("valid", JBool true); ("code", JStr "ACTIVATION_SUCCESS"); ("expires_in", JNum 2592000)]
    [("Content-Type", "application/json");
     ("Set-Cookie", session_cookie sessionToken 2592000)].

Definition invalid_input : Response :=
  Response_json [("valid", JBool false); ("code", JStr "INVALID_INPUT");
                 ("message", JStr "卡密格式错误（必须为16位大写字母和数字）")] 400.

Definition server_error : Response :=
  Response_json [("valid", JBool false); ("code", JStr "SERVER_ERROR");
                 ("message", JStr "验证过程中发生错误")] 500.

Definition onRequest (request : Request) : Prog Query Response :=
  if negb (String.eqb (method request) "POST") then Ret method_not_allowed
  else
    try_catch
      (data ← request_json request;
       cardKey ← lift (CardValidationSchema_parse data);
       result ← await (SelectCard cardKey);
       match result with
       | None => Ret invalid_card
       | Some result =>
           now ← now_seconds;
           if is_used result then
             if now >? expires_at result then Ret card_expired
             else
               let remainingTime := expires_at result - now in
               sessionToken ← randomUUID;
               Ret (session_renewed sessionToken remainingTime)
           else
             sessionToken ← randomUUID;
             _ ← await (ActivateCard now (now + 24 * 60 * 60) cardKey);
             Ret (activation_success sessionToken)
       end)
      (fun error =>
         match error with
         | ZodError _ => Ret invalid_input
         | Error _ => Ret server_error
         end).

End Functions.

(** ** The worker revisions: shared table and responses *)

Module Worker.

(** Stored columns of [card_keys]; [key_code] is the key of the table. *)
Record Row : Type := {
  is_used : bool;
  first_used_at : option Z
}.

(** The table, and a journal of the statements executed on it (kept for
    the properties only; no statement reads it). *)
Record DB : Type := {
  card_keys : gmap string Row;
  journal : list DbEvent
}.

Definition logged (ev : DbEvent) (σ : DB) : DB :=
  {| card_keys := card_keys σ; journal := journal σ ++ [ev] |}.

(** A row as [SELECT *, (first_used_at + 86400) as expires_at] returns it. *)
Record CardKey : Type := {
  columns : Row;
  expires_at : option Z
}.

Definition selected (row : Row) : CardKey :=
  {| columns := row;
     expires_at := Sql.number (Sql.add (Sql.column (first_used_at row)) (Sql.Int (24 * 60 * 60))) |}.

(** A column read in JavaScript arithmetic: [null + n] is [n]. *)
Definition js_number (v : option Z) : Z := default 0 v.

(** [array.join(sep)] *)
Fixpoint join (sep : string) (l : list string) : string :=
  match l with
  | [] => ""
  | [x] => x
  | x :: rest => x +:+ sep +:+ join sep rest
  end.

(** [z.string().regex(/^[A-Z0-9]{5}-...$/, message)] *)
Definition cardKey_checks (s : string) : list string :=
  if grouped_pattern s then []
  else ["卡密格式错误，正确格式应为：XXXXX-XXXXX-XXXXX-XXXXX-XXXXX"].

Definition CardValidationSchema_parse (data : Json) : Exn + string :=
  parse_cardKey cardKey_checks data.

(** [error.errors.map(e => `${e.path.join('.')}: ${e.message}`).join('; ')] *)
Definition errorDetails (errors : list ZodIssue) : string :=
  join "; " (map (fun e => join "." (issue_path e) +:+ ": " +:+ issue_message e) errors).

Definition invalid_card_body : list (string * Json) :=
  [("valid", JBool false); ("code", JStr "INVALID_CARD"); ("message", JStr "卡密无效或已过期")].

Definition card_expired_body : list (string * Json) :=
  [("valid", JBool false); ("code", JStr "CARD_EXPIRED"); ("message", JStr "卡密已过期")].

Definition session_renewed_body (remainingTime : Z) : list (string * Json) :=
  [("valid", JBool true); ("code", JStr "SESSION_RENEWED"); ("expires_in", JNum remainingTime)].

Definition activation_success_body (expiresIn : Z) : list (string * Json) :=
  [("valid", JBool true); ("code", JStr "ACTIVATION_SUCCESS"); ("expires_in", JNum expiresIn)].

Definition invalid_input_body (details : string) : list (string * Json) :=
  [("valid", JBool false); ("code", JStr "INVALID_INPUT");
   ("message", JStr ("卡密格式错误: " +:+ details))].

Definition server_error_body (message : string) : list (string * Json) :=
  [("valid", JBool false); ("code", JStr "SERVER_ERROR");
   ("message", JStr ("验证过程中发生错误: " +:+ message))].

End Worker.

(** ** First worker revision: the branch reads [Date.now()] *)

Module WorkerLocal.
Import Worker.

Inductive Query : Type -> Type :=
| (** [SELECT *, (first_used_at + 86400) as expires_at FROM card_keys
      WHERE key_code = ?
      AND (first_used_at IS NULL OR first_used_at + 86400 > strftime('%s', 'now'))],
      [.bind(cardKey).first()] *)
  SelectCard (cardKey : string) : Query (option CardKey)
| (** [UPDATE card_keys SET is_used = TRUE, first_used_at = ? WHERE key_code = ?],
      [.bind(now, now + expiresIn, cardKey).run()] *)
  ActivateCard (first : Z) (second : Z) (third : string) : Query unit.

Definition placeholders {X : Type} (q : Query X) : nat :=
  match q with
  | SelectCard _ => 1
  | ActivateCard _ _ _ => 2
  end.

Definition bound {X : Type} (q : Query X) : nat :=
  match q with
  | SelectCard _ => 1
  | ActivateCard _ _ _ => 3
  end.

(** [first_used_at IS NULL OR first_used_at + 86400 > strftime('%s', 'now')]:
    a sum, which has no affinity, against text *)
Definition read_filter (row : Row) (t : Z) : bool :=
  Sql.holds
    (Sql.or (Sql.is_null (Sql.column (first_used_at row)))
            (Sql.gt (Sql.add (Sql.column (first_used_at row)) (Sql.Int (24 * 60 * 60)))
                    (Sql.strftime_s t))).

(** The statements once their placeholders are filled in order; the
    update compares [key_code] with the second value bound, a number. *)
Definition run_statement {X : Type} (q : Query X) (t : Z) (σ : DB) : (Exn + X) * DB :=
  match q in Query X return (Exn + X) * DB with
  | SelectCard cardKey =>
      (inr (match card_keys σ !! cardKey with
            | Some row => if read_filter row t then Some (selected row) else None
            | None => None
            end),
       logged (Selected cardKey) σ)
  | ActivateCard first second _ =>
      (inr tt,
       {| card_keys :=
            alter (fun _ => {| is_used := true; first_used_at := Some first |})
                  (string_of_Z second) (card_keys σ);
          journal := journal σ ++ [Updated (string_of_Z second)] |})
  end.

(** D1 runs a statement only when as many values are bound as it has
    placeholders: the update, bound with three values for two, is
    rejected. *)
#[global] Instance engine : Engine Query DB := fun X q t σ =>
  if Nat.eqb (bound q) (placeholders q) then run_statement q t σ
  else (inl (Error wrong_bindings), σ).

Definition method_not_allowed : Response :=
  {| status := 405;
     headers := [("content-type", "text/plain;charset=UTF-8")];
     payload := BodyText "请使用POST方法" |}.

Definition session_response (fields : list (string * Json)) (sessionToken : string)
    (maxAge : Z) : Response :=
  Response_stringified fields
    [("Content-Type", "application/json");
     ("Set-Cookie", session_cookie sessionToken maxAge)].

Definition fetch (request : Request) : Prog Query Response :=
  if negb (String.eqb (method request) "POST") then Ret method_not_allowed
  else
    try_catch
      (data ← request_json request;
       cardKey ← lift (CardValidationSchema_parse data);
       result ← await (SelectCard cardKey);
       match result with
       | None => Ret (Response_json invalid_card_body 200)
       | Some result =>
           now ← now_seconds;
           if is_used (columns result) then
             let expiresAt := js_number (first_used_at (columns result)) + 24 * 60 * 60 in
             if now >? expiresAt then Ret (Response_json card_expired_body 200)
             else
               let remainingTime := expiresAt - now in
               sessionToken ← randomUUID;
               Ret (session_response (session_renewed_body remainingTime)
                                     sessionToken remainingTime)
           else
             let expiresIn := 24 * 60 * 60 in
             sessionToken ← randomUUID;
             _ ← await (ActivateCard now (now + expiresIn) cardKey);
             Ret (session_response (activation_success_body expiresIn)
                                   sessionToken expiresIn)
       end)
      (fun error =>
         match error with
         | ZodError errors => Ret (Response_json (invalid_input_body (errorDetails errors)) 400)
         | Error message => Ret (Response_json (server_error_body message) 500)
         end).

End WorkerLocal.

(** ** Second worker revision: CORS headers, the branch reads the store clock *)

Module WorkerStore.
Import Worker.

Inductive Query : Type -> Type :=
| (** [SELECT *, (first_used_at + 86400) as expires_at FROM card_keys
      WHERE key_code = ?
      AND (first_used_at IS NULL OR first_used_at + 86400 - strftime('%s', 'now'))>0],
      [.bind(cardKey).first()] *)
  SelectCard (cardKey : string) : Query (option CardKey)
| (** [SELECT strftime('%s', 'now') as current_time], [.first()]: the
      column is the decimal text of the store clock, given here by the
      integer [parseInt(_, 10)] reads from it *)
  SelectNow : Query (option Z)
| (** [UPDATE card_keys SET is_used = 1, first_used_at = strftime('%s', 'now')
      WHERE key_code = ?], [.bind(cardKey).run()] *)
  ActivateCard (cardKey : string) : Query unit.

Definition placeholders {X : Type} (q : Query X) : nat :=
  match q with
  | SelectCard _ => 1
  | SelectNow => 0
  | ActivateCard _ => 1
  end.

Definition bound {X : Type} (q : Query X) : nat :=
  match q with
  | SelectCard _ => 1
  | SelectNow => 0
  | ActivateCard _ => 1
  end.

(** [(first_used_at IS NULL OR first_used_at + 86400 - strftime('%s', 'now'))>0]:
    the comparison with 0 applies to the value of the OR. *)
Definition read_filter (row : Row) (t : Z) : bool :=
  Sql.holds
    (Sql.gt
       (Sql.or (Sql.is_null (Sql.column (first_used_at row)))
               (Sql.sub (Sql.add (Sql.column (first_used_at row)) (Sql.Int (24 * 60 * 60)))
                        (Sql.strftime_s t)))
       (Sql.Int 0)).

Definition run_statement {X : Type} (q : Query X) (t : Z) (σ : DB) : (Exn + X) * DB :=
  match q in Query X return (Exn + X) * DB with
  | SelectCard cardKey =>
      (inr (match card_keys σ !! cardKey with
            | Some row => if read_filter row t then Some (selected row) else None
            | None => None
            end),
       logged (Selected cardKey) σ)
  | SelectNow =>
      (inr (Some t), logged ClockRead σ)
  | ActivateCard cardKey =>
      (inr tt,
       {| card_keys :=
            alter (fun _ => {| is_used := true; first_used_at := Some t |})
                  cardKey (card_keys σ);
          journal := journal σ ++ [Updated cardKey] |})
  end.

(** D1 runs a statement only when as many values are bound as it has
    placeholders. *)
#[global] Instance engine : Engine Query DB := fun X q t σ =>
  if Nat.eqb (bound q) (placeholders q) then run_statement q t σ
  else (inl (Error wrong_bindings), σ).

(** [x || fallback] on a header value: null and the empty string are falsy *)
Definition or_else (v : option string) (fallback : string) : string :=
  match v with
  | Some "" => fallback
  | Some s => s
  | None => fallback
  end.

Definition handleOptions (request : Request) : Response :=
  let origin' := or_else (origin request) "*" in
  match origin request, acr_method request, acr_headers request with
  | Some _, Some _, Some _ =>
      {| status := 200;
         headers :=
           [("Access-Control-Allow-Origin", origin');
            ("Access-Control-Allow-Methods", "POST, OPTIONS");
            ("Access-Control-Allow-Headers", or_else (acr_headers request) "Content-Type");
            ("Access-Control-Allow-Credentials", "true");
            ("Access-Control-Max-Age", "86400")];
         payload := BodyNull |}
  | _, _, _ =>
      {| status := 200;
         headers := [("Allow", "POST, OPTIONS"); ("Access-Control-Allow-Origin", origin')];
         payload := BodyNull |}
  end.

Definition corsHeaders (request : Request) : list (string * string) :=
  [("Access-Control-Allow-Origin", or_else (origin request) "*");
   ("Access-Control-Allow-Methods", "POST, OPTIONS");
   ("Access-Control-Allow-Headers", "Content-Type");
   ("Access-Control-Allow-Credentials", "true")].

(** [new Response(JSON.stringify(obj), { headers: { "Content-Type": ..., ...corsHeaders } })] *)
Definition json_response (request : Request) (fields : list (string * Json)) : Response :=
  Response_stringified fields (("Content-Type", "application/json") :: corsHeaders request).

Definition session_response (request : Request) (fields : list (string * Json))
    (sessionToken : string) (maxAge : Z) : Response :=
  Response_stringified fields
    ([("Content-Type", "application/json");
      ("Set-Cookie", session_cookie sessionToken maxAge)] ++ corsHeaders request).

Definition method_not_allowed (request : Request) : Response :=
  {| status := 405;
     headers := ("content-type", "text/plain;charset=UTF-8") :: corsHeaders request;
     payload := BodyText "请使用POST方法" |}.

Definition fetch (request : Request) : Prog Query Response :=
  if String.eqb (method request) "OPTIONS" then Ret (handleOptions request)
  else if negb (String.eqb (method request) "POST") then Ret (method_not_allowed request)
  else
    try_catch
      (data ← request_json request;
       cardKey ← lift (CardValidationSchema_parse data);
       result ← await (SelectCard cardKey);
       match result with
       | None => Ret (json_response request invalid_card_body)
       | Some result =>
           currentTimeResult ← await SelectNow;
           let now := default 0 currentTimeResult in
           if is_used (columns result) then
             let expiresAt := js_number (first_used_at (columns result)) + 24 * 60 * 60 in
             if now >? expiresAt then Ret (json_response request card_expired_body)
             else
               let remainingTime := expiresAt - now in
               sessionToken ← randomUUID;
               Ret (session_response request (session_renewed_body remainingTime)
                                     sessionToken remainingTime)
           else
             let expiresIn := 24 * 60 * 60 in
             sessionToken ← randomUUID;
             _ ← await (ActivateCard cardKey);
             Ret (session_response request (activation_success_body expiresIn)
                                   sessionToken expiresIn)
       end)
      (fun error =>
         match error with
         | ZodError errors => Ret (json_response request (invalid_input_body (errorDetails errors)))
         | Error message => Ret (json_response request (server_error_body message))
         end).

End WorkerStore.

(** ** Vocabulary of the properties *)

(** How many activation updates of [key] a journal holds *)
Fixpoint activations (key : string) (j : list DbEvent) : nat :=
  match j with
  | [] => 0
  | Updated k :: rest => (if String.eqb k key then 1 else 0) + activations key rest
  | _ :: rest => activations key rest
  end.

(** A request carrying [cardKey] as the handlers expect it *)
Definition post (cardKey : string) : Request :=
  {| method := "POST"; origin := None; acr_method := None; acr_headers := None;
     body := inr (JObj [("cardKey", JStr cardKey)]) |}.

(** A timeline on which the store clock reads [db] seconds and
    [Date.now()] reads [js] seconds at every instant; the store answers. *)
Definition clocks (db js : Z) (token : string) : Timeline :=
  fun _ => {| db_now := db; db_fault := None; js_now := js * 1000; uuid := token |}.

(** Both clocks read [t] at every instant. *)
Definition frozen (t : Z) (token : string) : Timeline := clocks t t token.


Definition key16 : string := "ABCDEFGH12345678".
Definition key25 : string := "AAAAA-BBBBB-CCCCC-DDDDD-EEEEE".

Definition functions_store (key : string) (row : Functions.CardKey) : Functions.DB :=
  {| Functions.card_keys := {[ key := row ]}; Functions.journal := [] |}.

Definition worker_store (key : string) (row : Worker.Row) : Worker.DB :=
  {| Worker.card_keys := {[ key := row ]}; Worker.journal := [] |}.

Definition functions_empty : Functions.DB :=
  {| Functions.card_keys := ∅; Functions.journal := [] |}.

Definition worker_empty : Worker.DB :=
  {| Worker.card_keys := ∅; Worker.journal := [] |}.

(** [first_used_at] is set exactly when [is_used] is true. *)
Definition row_consistent (row : Worker.Row) : Prop :=
  Worker.is_used row = true <-> is_Some (Worker.first_used_at row).

Definition store_consistent (σ : Worker.DB) : Prop :=
  forall key row, Worker.card_keys σ !! key = Some row -> row_consistent row.

(** Rows as provisioning creates them: never used, no first-use time. *)
Definition provisioned (σ : Worker.DB) : Prop :=
  forall key row, Worker.card_keys σ !! key = Some row ->
    Worker.is_used row = false /\ Worker.first_used_at row = None.

(** Stores the worker revisions can bring about: whole requests of
    either revision, and requests of the second one interleaved. *)
Inductive reachable : Worker.DB -> Prop :=
| reach_provisioned (σ : Worker.DB) :
    provisioned σ -> reachable σ
| reach_local (σ : Worker.DB) (request : Request) (env : Timeline) :
    reachable σ -> reachable (interp (WorkerLocal.fetch request) env 0 σ).2
| reach_store (σ : Worker.DB) (request : Request) (env : Timeline) :
    reachable σ -> reachable (interp (WorkerStore.fetch request) env 0 σ).2
| reach_interleaved (σ : Worker.DB) (requests : list Request) (sched : list (nat * Instant)) :
    reachable σ -> reachable (pool_run (map WorkerStore.fetch requests) sched σ).2.

(** * Properties *)

(** ** The two interpreters agree *)

Section Adequacy.
Context {Q : Type -> Type} {T : Type} `{!Engine Q T} {A : Type}.

Lemma interp_settled (p : Prog Q A) (r : Exn + A) (env : Timeline) (n : nat) (σ : T) :
  settled p = Some r -> interp p env n σ = (r, σ).
Proof. destruct p; simpl; intros H; inversion H; reflexivity. Qed.

Lemma interp_step (p : Prog Q A) (env : Timeline) (n : nat) (σ : T) :
  interp p env n σ = interp (step p (env n) σ).1 env (S n) (step p (env n) σ).2.
Proof.
  destruct p; simpl; try reflexivity.
  destruct (perform q (env n) σ) as [r σ']; reflexivity.
Qed.

Lemma pool_step_alone (p : Prog Q A) (i : Instant) (σ : T) :
  pool_step [p] (0%nat, i) σ = ([(step p i σ).1], (step p i σ).2).
Proof. unfold pool_step. cbn. destruct (step p i σ) as [p1 σ1]. reflexivity. Qed.

(** A request alone in the pool, scheduled at the instants of its
    timeline, goes the way [interp] runs it. *)
Lemma interp_pool_run (p : Prog Q A) (env : Timeline) (n k : nat) (σ : T) :
  exists p',
    (pool_run [p] (map (fun i => (0%nat, env i)) (seq n k)) σ).1 = [p'] /\
    interp p env n σ =
      interp p' env (n + k) (pool_run [p] (map (fun i => (0%nat, env i)) (seq n k)) σ).2.
Proof.
  revert p n σ. induction k as [|k IH]; intros p n σ.
  - exists p. cbn. rewrite Nat.add_0_r. split; reflexivity.
  - cbn [seq map pool_run]. rewrite pool_step_alone.
    destruct (IH (step p (env n) σ).1 (S n) (step p (env n) σ).2) as (p' & Hps & Hrun).
    exists p'. split; [exact Hps|].
    rewrite interp_step, Hrun. f_equal. lia.
Qed.

(** Once it has settled there, its outcome and store are those of [interp]. *)
Lemma pool_run_alone (p p' : Prog Q A) (r : Exn + A) (env : Timeline) (k : nat) (σ : T) :
  (pool_run [p] (map (fun i => (0%nat, env i)) (seq 0 k)) σ).1 = [p'] ->
  settled p' = Some r ->
  interp p env 0 σ = (r, (pool_run [p] (map (fun i => (0%nat, env i)) (seq 0 k)) σ).2).
Proof.
  intros Hps Hr. destruct (interp_pool_run p env 0 k σ) as (p'' & Hps' & Hrun).
  rewrite Hps in Hps'. inversion Hps'; subst p''.
  rewrite Hrun. apply interp_settled, Hr.
Qed.
End Adequacy.

Lemma parse_cardKey_rejects (checks : string -> list string) (data : Json) (e : Exn) :
  parse_cardKey checks data = inl e -> exists errors, e = ZodError errors.
Proof.
  unfold parse_cardKey. intros H.
  destruct data; try (inversion H; eauto; fail).
  destruct (js_get "cardKey" fields) as [v|]; [|inversion H; eauto].
  destruct v; try (inversion H; eauto; fail).
  destruct (checks s); inversion H; eauto.
Qed.

Lemma parse_cardKey_accepts (checks : string -> list string) (data : Json) (s : string) :
  parse_cardKey checks data = inr s ->
  checks s = [] /\ exists fields, data = JObj fields /\ js_get "cardKey" fields = Some (JStr s).
Proof.
  unfold parse_cardKey. intros H.
  destruct data; try discriminate.
  destruct (js_get "cardKey" fields) as [v|] eqn:G; [|discriminate].
  destruct v; try discriminate.
  destruct (checks s0) eqn:C; inversion H; subst. eauto.
Qed.

(** ** Paths through [Functions.onRequest] *)

Ltac simpl_run :=
  cbn -[Functions.not_expired WorkerLocal.read_filter WorkerStore.read_filter
        Worker.js_number Worker.errorDetails Z.div Z.gtb Z.add Z.sub Z.ltb Z.eqb];
  try change (24 * 60 * 60) with 86400.

Section OnRequestPaths.
Import Functions.
Variables (request : Request) (env : Timeline) (σ : DB).

Lemma onRequest_other_method :
  method request <> "POST" ->
  interp (onRequest request) env 0 σ = (inr method_not_allowed, σ).
Proof.
  intros H. apply String.eqb_neq in H. unfold onRequest. rewrite H. reflexivity.
Qed.

Hypothesis Hpost : method request = "POST".

Lemma onRequest_bad_json (msg : string) :
  body request = inl msg ->
  interp (onRequest request) env 0 σ = (inr server_error, σ).
Proof. intros Hb. unfold onRequest, request_json. rewrite Hpost, Hb. reflexivity. Qed.

Variable data : Json.
Hypothesis Hbody : body request = inr data.

Lemma onRequest_bad_key (e : Exn) :
  CardValidationSchema_parse data = inl e ->
  interp (onRequest request) env 0 σ = (inr invalid_input, σ).
Proof.
  intros Hp. destruct (parse_cardKey_rejects _ _ _ Hp) as [errors ->].
  unfold onRequest, request_json. rewrite Hpost, Hbody. simpl_run. rewrite Hp. reflexivity.
Qed.

Variable cardKey : string.
Hypothesis Hkey : CardValidationSchema_parse data = inr cardKey.

Local Ltac enter_onRequest :=
  unfold onRequest, request_json; rewrite Hpost, Hbody; simpl_run;
  rewrite Hkey; simpl_run; unfold perform.

Lemma onRequest_store_down (msg : string) :
  db_fault (env 0%nat) = Some msg ->
  interp (onRequest request) env 0 σ = (inr server_error, σ).
Proof. intros Hf. enter_onRequest. rewrite Hf. reflexivity. Qed.

Hypothesis Hup : db_fault (env 0%nat) = None.

Lemma onRequest_not_found :
  card_keys σ !! cardKey = None ->
  interp (onRequest request) env 0 σ = (inr invalid_card, logged (Selected cardKey) σ).
Proof. intros Hl. enter_onRequest. rewrite Hup. simpl_run. rewrite Hl. reflexivity. Qed.

Variable row : CardKey.
Hypothesis Hrow : card_keys σ !! cardKey = Some row.

Lemma onRequest_filtered :
  not_expired row (db_now (env 0%nat)) = false ->
  interp (onRequest request) env 0 σ = (inr invalid_card, logged (Selected cardKey) σ).
Proof. intros Hl. enter_onRequest. rewrite Hup. simpl_run. rewrite Hrow, Hl. reflexivity. Qed.

Hypothesis Hfilter : not_expired row (db_now (env 0%nat)) = true.

Local Ltac found_onRequest := enter_onRequest; rewrite Hup; simpl_run; rewrite Hrow, Hfilter; simpl_run.

Lemma onRequest_expired :
  is_used row = true ->
  expires_at row < js_now (env 1%nat) / 1000 ->
  interp (onRequest request) env 0 σ = (inr card_expired, logged (Selected cardKey) σ).
Proof.
  intros Hu Hlt. apply Z.gtb_lt in Hlt. found_onRequest. rewrite Hu, Hlt. reflexivity.
Qed.

Lemma onRequest_renewed :
  is_used row = true ->
  js_now (env 1%nat) / 1000 <= expires_at row ->
  interp (onRequest request) env 0 σ =
    (inr (session_renewed (uuid (env 2%nat)) (expires_at row - js_now (env 1%nat) / 1000)),
     logged (Selected cardKey) σ).
Proof.
  intros Hu Hle.
  assert (Hgt : (js_now (env 1%nat) / 1000 >? expires_at row) = false)
    by (rewrite Z.gtb_ltb; apply Z.ltb_ge; exact Hle).
  found_onRequest. rewrite Hu, Hgt. reflexivity.
Qed.

Lemma onRequest_activated :
  is_used row = false ->
  db_fault (env 3%nat) = None ->
  interp (onRequest request) env 0 σ =
    (inr (activation_success (uuid (env 2%nat))),
     {| card_keys :=
          <[cardKey := {| expires_at := js_now (env 1%nat) / 1000 + 86400;
                          is_used := true;
                          activated_at := Some (js_now (env 1%nat) / 1000) |}]> (card_keys σ);
        journal := journal σ ++ [Selected cardKey; Updated cardKey] |}).
Proof.
  intros Hu Hf. found_onRequest. rewrite Hu. simpl_run. unfold perform. rewrite Hf. simpl_run.
  f_equal. f_equal.
  - apply map_eq. intros j. destruct (decide (cardKey = j)) as [->|Hne].
    + rewrite lookup_alter_eq, lookup_insert_eq, Hrow. reflexivity.
    + rewrite lookup_alter_ne, lookup_insert_ne by done. reflexivity.
  - rewrite <- app_assoc. reflexivity.
Qed.

Lemma onRequest_activation_failed (msg : string) :
  is_used row = false ->
  db_fault (env 3%nat) = Some msg ->
  interp (onRequest request) env 0 σ = (inr server_error, logged (Selected cardKey) σ).
Proof.
  intros Hu Hf. found_onRequest. rewrite Hu. simpl_run. unfold perform. rewrite Hf. reflexivity.
Qed.
End OnRequestPaths.

(** ** Paths through [WorkerLocal.fetch] *)

Section LocalFetchPaths.
Import Worker WorkerLocal.
Variables (request : Request) (env : Timeline) (σ : DB).

Lemma local_other_method :
  method request <> "POST" ->
  interp (fetch request) env 0 σ = (inr method_not_allowed, σ).
Proof.
  intros H. apply String.eqb_neq in H. unfold fetch. rewrite H. reflexivity.
Qed.

Hypothesis Hpost : method request = "POST".

Lemma local_bad_json (msg : string) :
  body request = inl msg ->
  interp (fetch request) env 0 σ = (inr (Response_json (server_error_body msg) 500), σ).
Proof. intros Hb. unfold fetch, request_json. rewrite Hpost, Hb. reflexivity. Qed.

Variable data : Json.
Hypothesis Hbody : body request = inr data.

Lemma local_bad_key (errors : list ZodIssue) :
  CardValidationSchema_parse data = inl (ZodError errors) ->
  interp (fetch request) env 0 σ =
    (inr (Response_json (invalid_input_body (errorDetails errors)) 400), σ).
Proof.
  intros Hp. unfold fetch, request_json. rewrite Hpost, Hbody. simpl_run.
  rewrite Hp. reflexivity.
Qed.

Variable cardKey : string.
Hypothesis Hkey : CardValidationSchema_parse data = inr cardKey.

Local Ltac enter_local :=
  unfold fetch, request_json; rewrite Hpost, Hbody; simpl_run;
  rewrite Hkey; simpl_run; unfold perform.

Lemma local_store_down (msg : string) :
  db_fault (env 0%nat) = Some msg ->
  interp (fetch request) env 0 σ = (inr (Response_json (server_error_body msg) 500), σ).
Proof. intros Hf. enter_local. rewrite Hf. reflexivity. Qed.

Hypothesis Hup : db_fault (env 0%nat) = None.

Lemma local_not_found :
  card_keys σ !! cardKey = None ->
  interp (fetch request) env 0 σ =
    (inr (Response_json invalid_card_body 200), logged (Selected cardKey) σ).
Proof. intros Hl. enter_local. rewrite Hup. simpl_run. rewrite Hl. reflexivity. Qed.

Variable row : Row.
Hypothesis Hrow : card_keys σ !! cardKey = Some row.

Lemma local_filtered :
  read_filter row (db_now (env 0%nat)) = false ->
  interp (fetch request) env 0 σ =
    (inr (Response_json invalid_card_body 200), logged (Selected cardKey) σ).
Proof. intros Hl. enter_local. rewrite Hup. simpl_run. rewrite Hrow, Hl. reflexivity. Qed.

Hypothesis Hfilter : read_filter row (db_now (env 0%nat)) = true.

Local Ltac found_local := enter_local; rewrite Hup; simpl_run; rewrite Hrow, Hfilter; simpl_run.

Lemma local_expired :
  is_used row = true ->
  js_number (first_used_at row) + 86400 < js_now (env 1%nat) / 1000 ->
  interp (fetch request) env 0 σ =
    (inr (Response_json card_expired_body 200), logged (Selected cardKey) σ).
Proof.
  intros Hu Hlt. apply Z.gtb_lt in Hlt. found_local. rewrite Hu, Hlt. reflexivity.
Qed.

Lemma local_renewed :
  is_used row = true ->
  js_now (env 1%nat) / 1000 <= js_number (first_used_at row) + 86400 ->
  interp (fetch request) env 0 σ =
    (inr (session_response
            (session_renewed_body (js_number (first_used_at row) + 86400 - js_now (env 1%nat) / 1000))
            (uuid (env 2%nat))
            (js_number (first_used_at row) + 86400 - js_now (env 1%nat) / 1000)),
     logged (Selected cardKey) σ).
Proof.
  intros Hu Hle.
  assert (Hgt : (js_now (env 1%nat) / 1000 >? js_number (first_used_at row) + 86400) = false)
    by (rewrite Z.gtb_ltb; apply Z.ltb_ge; exact Hle).
  found_local. rewrite Hu, Hgt. reflexivity.
Qed.

(** The update is bound with three values for two placeholders: the
    store rejects it whenever the branch is reached. *)
Lemma local_activation_rejected :
  is_used row = false ->
  exists msg,
    interp (fetch request) env 0 σ =
      (inr (Response_json (server_error_body msg) 500), logged (Selected cardKey) σ).
Proof.
  intros Hu. found_local. rewrite Hu. simpl_run. unfold perform.
  destruct (db_fault (env 3%nat)) as [msg|]; eexists; reflexivity.
Qed.
End LocalFetchPaths.

(** ** Paths through [WorkerStore.fetch] *)

Section StoreFetchPaths.
Import Worker WorkerStore.
Variables (request : Request) (env : Timeline) (σ : DB).

Lemma store_options :
  method request = "OPTIONS" ->
  interp (fetch request) env 0 σ = (inr (handleOptions request), σ).
Proof. intros H. unfold fetch. rewrite H. reflexivity. Qed.

Lemma store_other_method :
  method request <> "OPTIONS" ->
  method request <> "POST" ->
  interp (fetch request) env 0 σ = (inr (method_not_allowed request), σ).
Proof.
  intros H1 H2. apply String.eqb_neq in H1, H2. unfold fetch. rewrite H1, H2. reflexivity.
Qed.

Hypothesis Hpost : method request = "POST".

Lemma store_bad_json (msg : string) :
  body request = inl msg ->
  interp (fetch request) env 0 σ = (inr (json_response request (server_error_body msg)), σ).
Proof. intros Hb. unfold fetch, request_json. rewrite Hpost, Hb. reflexivity. Qed.

Variable data : Json.
Hypothesis Hbody : body request = inr data.

Lemma store_bad_key (errors : list ZodIssue) :
  CardValidationSchema_parse data = inl (ZodError errors) ->
  interp (fetch request) env 0 σ =
    (inr (json_response request (invalid_input_body (errorDetails errors))), σ).
Proof.
  intros Hp. unfold fetch, request_json. rewrite Hpost, Hbody. simpl_run.
  rewrite Hp. reflexivity.
Qed.

Variable cardKey : string.
Hypothesis Hkey : CardValidationSchema_parse data = inr cardKey.

Local Ltac enter_store :=
  unfold fetch, request_json; rewrite Hpost, Hbody; simpl_run;
  rewrite Hkey; simpl_run; unfold perform.

Lemma store_down (msg : string) :
  db_fault (env 0%nat) = Some msg ->
  interp (fetch request) env 0 σ = (inr (json_response request (server_error_body msg)), σ).
Proof. intros Hf. enter_store. rewrite Hf. reflexivity. Qed.

Hypothesis Hup : db_fault (env 0%nat) = None.

Lemma store_not_found :
  card_keys σ !! cardKey = None ->
  interp (fetch request) env 0 σ =
    (inr (json_response request invalid_card_body), logged (Selected cardKey) σ).
Proof. intros Hl. enter_store. rewrite Hup. simpl_run. rewrite Hl. reflexivity. Qed.

Variable row : Row.
Hypothesis Hrow : card_keys σ !! cardKey = Some row.

Lemma store_filtered :
  read_filter row (db_now (env 0%nat)) = false ->
  interp (fetch request) env 0 σ =
    (inr (json_response request invalid_card_body), logged (Selected cardKey) σ).
Proof. intros Hl. enter_store. rewrite Hup. simpl_run. rewrite Hrow, Hl. reflexivity. Qed.

Hypothesis Hfilter : read_filter row (db_now (env 0%nat)) = true.

Local Ltac found_store :=
  enter_store; rewrite Hup; simpl_run; rewrite Hrow, Hfilter; simpl_run; unfold perform.

Lemma store_clock_down (msg : string) :
  db_fault (env 1%nat) = Some msg ->
  interp (fetch request) env 0 σ =
    (inr (json_response request (server_error_body msg)), logged (Selected cardKey) σ).
Proof. intros Hf. found_store. rewrite Hf. reflexivity. Qed.

Hypothesis Hclock : db_fault (env 1%nat) = None.

Lemma store_expired :
  is_used row = true ->
  js_number (first_used_at row) + 86400 < db_now (env 1%nat) ->
  interp (fetch request) env 0 σ =
    (inr (json_response request card_expired_body),
     logged ClockRead (logged (Selected cardKey) σ)).
Proof.
  intros Hu Hlt. apply Z.gtb_lt in Hlt. found_store. rewrite Hclock. simpl_run.
  rewrite Hu, Hlt. reflexivity.
Qed.

Lemma store_renewed :
  is_used row = true ->
  db_now (env 1%nat) <= js_number (first_used_at row) + 86400 ->
  interp (fetch request) env 0 σ =
    (inr (session_response request
            (session_renewed_body (js_number (first_used_at row) + 86400 - db_now (env 1%nat)))
            (uuid (env 2%nat))
            (js_number (first_used_at row) + 86400 - db_now (env 1%nat))),
     logged ClockRead (logged (Selected cardKey) σ)).
Proof.
  intros Hu Hle.
  assert (Hgt : (db_now (env 1%nat) >? js_number (first_used_at row) + 86400) = false)
    by (rewrite Z.gtb_ltb; apply Z.ltb_ge; exact Hle).
  found_store. rewrite Hclock. simpl_run. rewrite Hu, Hgt. reflexivity.
Qed.

Lemma store_activated :
  is_used row = false ->
  db_fault (env 3%nat) = None ->
  interp (fetch request) env 0 σ =
    (inr (session_response request (activation_success_body 86400) (uuid (env 2%nat)) 86400),
     {| card_keys :=
          <[cardKey := {| is_used := true; first_used_at := Some (db_now (env 3%nat)) |}]>
            (card_keys σ);
        journal := journal σ ++ [Selected cardKey; ClockRead; Updated cardKey] |}).
Proof.
  intros Hu Hf. found_store. rewrite Hclock. simpl_run. rewrite Hu. simpl_run.
  unfold perform. rewrite Hf. simpl_run. f_equal. f_equal.
  - apply map_eq. intros j. destruct (decide (cardKey = j)) as [->|Hne].
    + rewrite lookup_alter_eq, lookup_insert_eq, Hrow. reflexivity.
    + rewrite lookup_alter_ne, lookup_insert_ne by done. reflexivity.
  - rewrite <- !app_assoc. reflexivity.
Qed.

Lemma store_activation_failed (msg : string) :
  is_used row = false ->
  db_fault (env 3%nat) = Some msg ->
  interp (fetch request) env 0 σ =
    (inr (json_response request (server_error_body msg)),
     logged ClockRead (logged (Selected cardKey) σ)).
Proof.
  intros Hu Hf. found_store. rewrite Hclock. simpl_run. rewrite Hu. simpl_run.
  unfold perform. rewrite Hf. reflexivity.
Qed.
End StoreFetchPaths.

(** ** Case analysis of a whole request *)

Ltac split_onRequest request env σ :=
  let Hpost := fresh "Hpost" in let Hbody := fresh "Hbody" in
  let Hkey := fresh "Hkey" in let Hup := fresh "Hup" in
  let Hrow := fresh "Hrow" in let Hfilter := fresh "Hfilter" in
  let Hu := fresh "Hu" in let Hf := fresh "Hf" in let Hnow := fresh "Hnow" in
  destruct (decide (method request = "POST")) as [Hpost|Hpost];
  [ destruct (body request) as [?msg|?data] eqn:Hbody;
    [ rewrite (onRequest_bad_json request env σ Hpost _ Hbody)
    | match type of Hbody with _ = inr ?data =>
      destruct (Functions.CardValidationSchema_parse data) as [?e|?cardKey] eqn:Hkey;
      [ rewrite (onRequest_bad_key request env σ Hpost _ Hbody _ Hkey)
      | match type of Hkey with _ = inr ?k =>
        destruct (db_fault (env 0%nat)) as [?msg|] eqn:Hup;
        [ rewrite (onRequest_store_down request env σ Hpost _ Hbody _ Hkey _ Hup)
        | destruct (Functions.card_keys σ !! k) as [?row|] eqn:Hrow;
          [ match type of Hrow with _ = Some ?row =>
            destruct (Functions.not_expired row (db_now (env 0%nat))) eqn:Hfilter;
            [ destruct (Functions.is_used row) eqn:Hu;
              [ destruct (Z_lt_le_dec (Functions.expires_at row) (js_now (env 1%nat) / 1000))
                  as [Hnow|Hnow];
                [ rewrite (onRequest_expired request env σ Hpost _ Hbody _ Hkey Hup _ Hrow Hfilter Hu Hnow)
                | rewrite (onRequest_renewed request env σ Hpost _ Hbody _ Hkey Hup _ Hrow Hfilter Hu Hnow) ]
              | destruct (db_fault (env 3%nat)) as [?msg|] eqn:Hf;
                [ rewrite (onRequest_activation_failed request env σ Hpost _ Hbody _ Hkey Hup _ Hrow Hfilter _ Hu Hf)
                | rewrite (onRequest_activated request env σ Hpost _ Hbody _ Hkey Hup _ Hrow Hfilter Hu Hf) ] ]
            | rewrite (onRequest_filtered request env σ Hpost _ Hbody _ Hkey Hup _ Hrow Hfilter) ]
            end
          | rewrite (onRequest_not_found request env σ Hpost _ Hbody _ Hkey Hup Hrow) ] ]
        end ]
      end ]
  | rewrite (onRequest_other_method request env σ Hpost) ].

Ltac split_store_fetch request env σ :=
  let Hopt := fresh "Hopt" in
  let Hpost := fresh "Hpost" in let Hbody := fresh "Hbody" in
  let Hkey := fresh "Hkey" in let Hup := fresh "Hup" in
  let Hrow := fresh "Hrow" in let Hfilter := fresh "Hfilter" in
  let Hclock := fresh "Hclock" in
  let Hu := fresh "Hu" in let Hf := fresh "Hf" in let Hnow := fresh "Hnow" in
  destruct (decide (method request = "OPTIONS")) as [Hopt|Hopt];
  [ rewrite (store_options request env σ Hopt)
  | destruct (decide (method request = "POST")) as [Hpost|Hpost];
    [ destruct (body request) as [?msg|?data] eqn:Hbody;
      [ rewrite (store_bad_json request env σ Hpost _ Hbody)
      | match type of Hbody with _ = inr ?data =>
        destruct (Worker.CardValidationSchema_parse data) as [?e|?cardKey] eqn:Hkey;
        [ let errors := fresh "errors" in
          destruct (parse_cardKey_rejects _ _ _ Hkey) as [errors ->];
          rewrite (store_bad_key request env σ Hpost _ Hbody _ Hkey)
        | match type of Hkey with _ = inr ?k =>
          destruct (db_fault (env 0%nat)) as [?msg|] eqn:Hup;
          [ rewrite (store_down request env σ Hpost _ Hbody _ Hkey _ Hup)
          | destruct (Worker.card_keys σ !! k) as [?row|] eqn:Hrow;
            [ match type of Hrow with _ = Some ?row =>
              destruct (WorkerStore.read_filter row (db_now (env 0%nat))) eqn:Hfilter;
              [ destruct (db_fault (env 1%nat)) as [?msg|] eqn:Hclock;
                [ rewrite (store_clock_down request env σ Hpost _ Hbody _ Hkey Hup _ Hrow Hfilter _ Hclock)
                | destruct (Worker.is_used row) eqn:Hu;
                  [ destruct (Z_lt_le_dec (Worker.js_number (Worker.first_used_at row) + 86400)
                                          (db_now (env 1%nat))) as [Hnow|Hnow];
                    [ rewrite (store_expired request env σ Hpost _ Hbody _ Hkey Hup _ Hrow Hfilter Hclock Hu Hnow)
                    | rewrite (store_renewed request env σ Hpost _ Hbody _ Hkey Hup _ Hrow Hfilter Hclock Hu Hnow) ]
                  | destruct (db_fault (env 3%nat)) as [?msg|] eqn:Hf;
                    [ rewrite (store_activation_failed request env σ Hpost _ Hbody _ Hkey Hup _ Hrow Hfilter Hclock _ Hu Hf)
                    | rewrite (store_activated request env σ Hpost _ Hbody _ Hkey Hup _ Hrow Hfilter Hclock Hu Hf) ] ] ]
              | rewrite (store_filtered request env σ Hpost _ Hbody _ Hkey Hup _ Hrow Hfilter) ]
              end
            | rewrite (store_not_found request env σ Hpost _ Hbody _ Hkey Hup Hrow) ] ]
          end ]
        end ]
    | rewrite (store_other_method request env σ Hopt Hpost) ] ].

(** ** The read filters *)

Lemma not_expired_spec (row : Functions.CardKey) (t : Z) :
  Functions.not_expired row t = true <-> t < Functions.expires_at row.
Proof.
  unfold Functions.not_expired, Sql.holds, Sql.column_gt, Sql.strftime_s, Sql.gt, Sql.of_bool.
  destruct (Z.gtb_spec (Functions.expires_at row) t); cbn; split; intros; try lia; try discriminate; reflexivity.
Qed.


(** The second revision compares the value of the OR with zero: a used
    row is dropped only in the second its window ends. *)
Lemma store_filter_spec (row : Worker.Row) (t : Z) :
  WorkerStore.read_filter row t = true <->
  match Worker.first_used_at row with
  | None => True
  | Some first => t <> first + 86400
  end.
Proof.
  unfold WorkerStore.read_filter. destruct (Worker.first_used_at row) as [first|]; cbn.
  - change (24 * 60 * 60) with 86400.
    destruct (Z.eqb_spec (first + 86400 - t) 0); cbn; split; intros; try lia; try discriminate; reflexivity.
  - tauto.
Qed.

(** ** Requests served one after another *)

Lemma serve_cons {Q : Type -> Type} {T R : Type} `{!Engine Q T}
    (handler : R -> Prog Q Response) (r : R) (env : Timeline)
    (rest : list (R * Timeline)) (σ : T) :
  serve handler ((r, env) :: rest) σ =
    ((interp (handler r) env 0 σ).1 :: (serve handler rest (interp (handler r) env 0 σ).2).1,
     (serve handler rest (interp (handler r) env 0 σ).2).2).
Proof.
  cbn. destruct (interp (handler r) env 0 σ) as [out σ1]. cbn.
  destruct (serve handler rest σ1) as [outs σ2]. reflexivity.
Qed.

(** ** What every program over a store preserves *)

Section Preservation.
Context {Q : Type -> Type} {T : Type} `{!Engine Q T} (P : T -> Prop).
Hypothesis exec_keeps :
  forall (X : Type) (q : Q X) (t : Z) (σ : T), P σ -> P (exec q t σ).2.

Lemma perform_keeps (X : Type) (q : Q X) (i : Instant) (σ : T) :
  P σ -> P (perform q i σ).2.
Proof.
  intros H. unfold perform. destruct (db_fault i); [exact H|]. apply exec_keeps, H.
Qed.

Lemma step_keeps (A : Type) (p : Prog Q A) (i : Instant) (σ : T) :
  P σ -> P (step p i σ).2.
Proof.
  intros H. destruct p; cbn; try exact H.
  pose proof (perform_keeps _ q i σ H) as Hq.
  destruct (perform q i σ) as [r σ']. exact Hq.
Qed.

Lemma interp_keeps (A : Type) (p : Prog Q A) (env : Timeline) (n : nat) (σ : T) :
  P σ -> P (interp p env n σ).2.
Proof.
  revert n σ. induction p as [a|e|X q k IH|k IH|k IH]; intros n σ H; cbn; auto.
  pose proof (perform_keeps _ q (env n) σ H) as Hq.
  destruct (perform q (env n) σ) as [r σ']. apply IH, Hq.
Qed.

Lemma pool_run_keeps (A : Type) (ps : list (Prog Q A)) (sched : list (nat * Instant)) (σ : T) :
  P σ -> P (pool_run ps sched σ).2.
Proof.
  revert ps σ. induction sched as [|s sched IH]; intros ps σ H; cbn; [exact H|].
  unfold pool_step. destruct (ps !! s.1) as [p|]; [|apply IH, H].
  pose proof (step_keeps _ p s.2 σ H) as Hp.
  destruct (step p s.2 σ) as [p' σ']. apply IH, Hp.
Qed.
End Preservation.

(** ** C1 *)

Lemma activations_app (key : string) (j1 j2 : list DbEvent) :
  activations key (j1 ++ j2)%list = (activations key j1 + activations key j2)%nat.
Proof.
  induction j1 as [|ev j1 IH]; cbn; [reflexivity|].
  destruct ev; rewrite IH; lia.
Qed.

(** What one whole request of the second worker revision does to the
    row of [key]: nothing, or its one activation. *)
Lemma store_call_effect (key : string) (request : Request) (env : Timeline) (σ : Worker.DB) :
  let σ' := (interp (WorkerStore.fetch request) env 0 σ).2 in
  (Worker.card_keys σ' !! key = Worker.card_keys σ !! key /\
   activations key (Worker.journal σ') = activations key (Worker.journal σ)) \/
  (exists row, Worker.card_keys σ !! key = Some row /\ Worker.is_used row = false /\
     Worker.is_used <$> Worker.card_keys σ' !! key = Some true /\
     activations key (Worker.journal σ') = S (activations key (Worker.journal σ))).
Proof.
  cbn zeta. split_store_fetch request env σ; cbn [fst snd Worker.logged Worker.card_keys Worker.journal];
    rewrite ?activations_app; cbn [activations]; try (left; split; [reflexivity|lia]).
  destruct (decide (cardKey = key)) as [->|Hne].
  - right. exists row. rewrite String.eqb_refl, lookup_insert_eq. repeat split; auto. lia.
  - left. rewrite lookup_insert_ne by done.
    apply String.eqb_neq in Hne. rewrite Hne. split; [reflexivity|lia].
Qed.

Lemma onRequest_call_effect (key : string) (request : Request) (env : Timeline) (σ : Functions.DB) :
  let σ' := (interp (Functions.onRequest request) env 0 σ).2 in
  (Functions.card_keys σ' !! key = Functions.card_keys σ !! key /\
   activations key (Functions.journal σ') = activations key (Functions.journal σ)) \/
  (exists row, Functions.card_keys σ !! key = Some row /\ Functions.is_used row = false /\
     Functions.is_used <$> Functions.card_keys σ' !! key = Some true /\
     activations key (Functions.journal σ') = S (activations key (Functions.journal σ))).
Proof.
  cbn zeta. split_onRequest request env σ;
    cbn [fst snd Functions.logged Functions.card_keys Functions.journal];
    rewrite ?activations_app; cbn [activations]; try (left; split; [reflexivity|lia]).
  destruct (decide (cardKey = key)) as [->|Hne].
  - right. exists row. rewrite String.eqb_refl, lookup_insert_eq. repeat split; auto. lia.
  - left. rewrite lookup_insert_ne by done.
    apply String.eqb_neq in Hne. rewrite Hne. split; [reflexivity|lia].
Qed.

(** A key that is used, or not in the table, is never activated by
    requests served one after another. *)
Lemma store_spent_key_stays (key : string) (calls : list (Request * Timeline)) (σ : Worker.DB) :
  (forall row, Worker.card_keys σ !! key = Some row -> Worker.is_used row = true) ->
  activations key (Worker.journal (serve WorkerStore.fetch calls σ).2)
    = activations key (Worker.journal σ).
Proof.
  revert σ. induction calls as [|[request env] calls IH]; intros σ Hspent; [reflexivity|].
  rewrite serve_cons. cbn [snd].
  destruct (store_call_effect key request env σ) as [[Hrows Hacts]|(row & Hrow & Hu & _)].
  - rewrite IH; [exact Hacts|]. intros row. rewrite Hrows. apply Hspent.
  - rewrite (Hspent row Hrow) in Hu. discriminate.
Qed.

Lemma onRequest_spent_key_stays (key : string) (calls : list (Request * Timeline))
    (σ : Functions.DB) :
  (forall row, Functions.card_keys σ !! key = Some row -> Functions.is_used row = true) ->
  activations key (Functions.journal (serve Functions.onRequest calls σ).2)
    = activations key (Functions.journal σ).
Proof.
  revert σ. induction calls as [|[request env] calls IH]; intros σ Hspent; [reflexivity|].
  rewrite serve_cons. cbn [snd].
  destruct (onRequest_call_effect key request env σ) as [[Hrows Hacts]|(row & Hrow & Hu & _)].
  - rewrite IH; [exact Hacts|]. intros row. rewrite Hrows. apply Hspent.
  - rewrite (Hspent row Hrow) in Hu. discriminate.
Qed.

(** C1, as stated, fails: two requests for one fresh key, the second
    reading the row before the first has written it, both run the
    update and are both answered ACTIVATION_SUCCESS; the stamp of the
    first (102) is overwritten by the second (105). *)
Lemma two_interleaved_calls_both_activate :
  let fresh := {| Worker.is_used := false; Worker.first_used_at := None |} in
  let tick (t : Z) (token : string) : Instant :=
    {| db_now := t; db_fault := None; js_now := t * 1000; uuid := token |} in
  let sched := [(0%nat, tick 100 "a"); (1%nat, tick 100 "b");
                (0%nat, tick 101 "a"); (1%nat, tick 101 "b");
                (0%nat, tick 102 "a"); (0%nat, tick 102 "a");
                (1%nat, tick 105 "b"); (1%nat, tick 105 "b")] in
  let run := pool_run [WorkerStore.fetch (post key25); WorkerStore.fetch (post key25)]
               sched (worker_store key25 fresh) in
  map settled run.1 =
    [Some (inr (WorkerStore.session_response (post key25)
                  (Worker.activation_success_body 86400) "a" 86400));
     Some (inr (WorkerStore.session_response (post key25)
                  (Worker.activation_success_body 86400) "b" 86400))] /\
  activations key25 (Worker.journal run.2) = 2%nat /\
  ~ (activations key25 (Worker.journal run.2) <= 1)%nat /\
  Worker.card_keys (pool_run [WorkerStore.fetch (post key25); WorkerStore.fetch (post key25)]
                      (take 6 sched) (worker_store key25 fresh)).2 !! key25
    = Some {| Worker.is_used := true; Worker.first_used_at := Some 102 |} /\
  Worker.card_keys run.2 !! key25
    = Some {| Worker.is_used := true; Worker.first_used_at := Some 105 |}.
Proof. vm_compute. repeat split; try reflexivity. lia. Qed.

(** C1 (amended). The activation update is scoped to the key alone: it
    marks and stamps the row whatever its [is_used] was.  Requests
    served one after another run it at most once for a key, and never
    for a key that is already used. *)
Theorem activation_write_is_unguarded :
  (forall (σ : Worker.DB) (cardKey : string) (t : Z),
      Worker.card_keys (exec (WorkerStore.ActivateCard cardKey) t σ).2 !! cardKey =
        (fun _ => {| Worker.is_used := true; Worker.first_used_at := Some t |})
          <$> Worker.card_keys σ !! cardKey) /\
  (forall (σ : Functions.DB) (cardKey : string) (activated expires t : Z),
      Functions.card_keys (exec (Functions.ActivateCard activated expires cardKey) t σ).2 !! cardKey =
        (fun _ => {| Functions.expires_at := expires; Functions.is_used := true;
                     Functions.activated_at := Some activated |})
          <$> Functions.card_keys σ !! cardKey) /\
  (forall (key : string) (calls : list (Request * Timeline)) (σ : Worker.DB),
      (activations key (Worker.journal (serve WorkerStore.fetch calls σ).2)
         <= S (activations key (Worker.journal σ)))%nat /\
      ((forall row, Worker.card_keys σ !! key = Some row -> Worker.is_used row = true) ->
       activations key (Worker.journal (serve WorkerStore.fetch calls σ).2)
         = activations key (Worker.journal σ))) /\
  (forall (key : string) (calls : list (Request * Timeline)) (σ : Functions.DB),
      (activations key (Functions.journal (serve Functions.onRequest calls σ).2)
         <= S (activations key (Functions.journal σ)))%nat /\
      ((forall row, Functions.card_keys σ !! key = Some row -> Functions.is_used row = true) ->
       activations key (Functions.journal (serve Functions.onRequest calls σ).2)
         = activations key (Functions.journal σ))).
Proof.
  split; [|split; [|split]].
  - intros σ cardKey t. cbn. apply lookup_alter_eq.
  - intros σ cardKey activated expires t. cbn. apply lookup_alter_eq.
  - intros key calls σ. split; [|apply store_spent_key_stays].
    revert σ. induction calls as [|[request env] calls IH]; intros σ; [cbn; lia|].
    rewrite serve_cons. cbn [snd].
    destruct (store_call_effect key request env σ) as [[Hrows Hacts]|(row & Hrow & Hu & Hused & Hacts)].
    + rewrite <- Hacts. apply IH.
    + rewrite store_spent_key_stays; [lia|].
      intros row' Hrow'. rewrite Hrow' in Hused. cbn in Hused. congruence.
  - intros key calls σ. split; [|apply onRequest_spent_key_stays].
    revert σ. induction calls as [|[request env] calls IH]; intros σ; [cbn; lia|].
    rewrite serve_cons. cbn [snd].
    destruct (onRequest_call_effect key request env σ) as [[Hrows Hacts]|(row & Hrow & Hu & Hused & Hacts)].
    + rewrite <- Hacts. apply IH.
    + rewrite onRequest_spent_key_stays; [lia|].
      intros row' Hrow'. rewrite Hrow' in Hused. cbn in Hused. congruence.
Qed.


(** Three calls for one fresh key, one after another: one activation. *)
Lemma activation_write_is_unguarded_witness :
  let fresh := {| Worker.is_used := false; Worker.first_used_at := None |} in
  let used := {| Worker.is_used := true; Worker.first_used_at := Some 1000 |} in
  let calls := [(post key25, frozen 1000 "a"); (post key25, frozen 1001 "b");
                (post key25, frozen 1002 "c")] in
  (activations key25 (Worker.journal (serve WorkerStore.fetch calls (worker_store key25 fresh)).2)
     <= S (activations key25 (Worker.journal (worker_store key25 fresh))))%nat /\
  activations key25 (Worker.journal (serve WorkerStore.fetch calls (worker_store key25 used)).2)
    = activations key25 (Worker.journal (worker_store key25 used)) /\
  Worker.card_keys (exec (WorkerStore.ActivateCard key25) 2000 (worker_store key25 used)).2 !! key25
    = (fun _ => {| Worker.is_used := true; Worker.first_used_at := Some 2000 |})
        <$> Worker.card_keys (worker_store key25 used) !! key25.
Proof.
  destruct activation_write_is_unguarded as (Hw & _ & Hs & _). cbn zeta.
  split; [|split].
  - apply Hs.
  - apply Hs. intros row Hrow. cbn in Hrow.
    apply lookup_singleton_Some in Hrow as [_ <-]. reflexivity.
  - apply Hw.
Defined.

(** In that run the one activation happens. *)
Example one_activation_in_sequence :
  let fresh := {| Worker.is_used := false; Worker.first_used_at := None |} in
  let calls := [(post key25, frozen 1000 "a"); (post key25, frozen 1001 "b");
                (post key25, frozen 1002 "c")] in
  activations key25 (Worker.journal (serve WorkerStore.fetch calls (worker_store key25 fresh)).2)
    = 1%nat.
Proof. vm_compute. reflexivity. Qed.

(** ** C2 *)

(** First activation in [onRequest]: the response and the cookie carry
    2592000 seconds, the row is stamped to expire 86400 seconds after
    the activation time. *)
Lemma onRequest_activation_window (request : Request) (env : Timeline) (σ : Functions.DB)
    (data : Json) (cardKey : string) (row : Functions.CardKey) :
  method request = "POST" -> body request = inr data ->
  Functions.CardValidationSchema_parse data = inr cardKey ->
  db_fault (env 0%nat) = None -> db_fault (env 3%nat) = None ->
  Functions.card_keys σ !! cardKey = Some row ->
  db_now (env 0%nat) < Functions.expires_at row ->
  Functions.is_used row = false ->
  let now := js_now (env 1%nat) / 1000 in
  exists resp σ',
    interp (Functions.onRequest request) env 0 σ = (inr resp, σ') /\
    code_of resp = Some (JStr "ACTIVATION_SUCCESS") /\
    expires_in_of resp = Some (JNum 2592000) /\
    header "Set-Cookie" (headers resp) = Some (session_cookie (uuid (env 2%nat)) 2592000) /\
    Functions.card_keys σ' !! cardKey =
      Some {| Functions.expires_at := now + 86400; Functions.is_used := true;
              Functions.activated_at := Some now |}.
Proof.
  intros Hm Hb Hk Hup Hf Hrow Hlive Hu now.
  apply not_expired_spec in Hlive.
  rewrite (onRequest_activated request env σ Hm _ Hb _ Hk Hup _ Hrow Hlive Hu Hf).
  do 2 eexists. split; [reflexivity|]. repeat split. cbn. apply lookup_insert_eq.
Qed.

(** C2. Activating a fresh key through [onRequest] at time 1000: the
    response announces [expires_in] 2592000 and the cookie lives as
    long, while the stored expiry is 1000 + 86400. *)
Theorem activation_window_mismatch :
  let fresh := {| Functions.expires_at := 5000; Functions.is_used := false;
                  Functions.activated_at := None |} in
  let run := interp (Functions.onRequest (post key16)) (frozen 1000 "t") 0
               (functions_store key16 fresh) in
  (exists resp, run.1 = inr resp /\
     code_of resp = Some (JStr "ACTIVATION_SUCCESS") /\
     expires_in_of resp = Some (JNum 2592000) /\
     header "Set-Cookie" (headers resp) = Some (session_cookie "t" 2592000)) /\
  Functions.card_keys run.2 !! key16 =
    Some {| Functions.expires_at := 1000 + 86400; Functions.is_used := true;
            Functions.activated_at := Some 1000 |} /\
  1000 + 86400 <> 1000 + 2592000.
Proof.
  cbn zeta.
  destruct (onRequest_activation_window (post key16) (frozen 1000 "t")
              (functions_store key16 {| Functions.expires_at := 5000; Functions.is_used := false;
                                        Functions.activated_at := None |})
              (JObj [("cardKey", JStr key16)]) key16
              {| Functions.expires_at := 5000; Functions.is_used := false;
                 Functions.activated_at := None |})
    as (resp & σ' & Hrun & Hc & He & Hh & Hs); try reflexivity.
  rewrite Hrun. cbn [fst snd]. split; [|split].
  - exists resp. auto.
  - exact Hs.
  - discriminate.
Qed.

(** ** C3 *)




(** ** C4 *)

(** C4, as stated, fails: two renewals 800 ms apart, within one second
    of [Date.now()], carry the same [expires_in]. *)
Lemma renewal_expires_in_can_repeat :
  let live := {| Functions.expires_at := 5000; Functions.is_used := true;
                 Functions.activated_at := Some 1000 |} in
  let at_ms (ms : Z) (token : string) : Timeline :=
    fun _ => {| db_now := 4000; db_fault := None; js_now := ms; uuid := token |} in
  let run := serve Functions.onRequest
               [(post key16, at_ms 4000100 "a"); (post key16, at_ms 4000900 "b")]
               (functions_store key16 live) in
  run.1 = [inr (Functions.session_renewed "a" 1000); inr (Functions.session_renewed "b" 1000)] /\
  expires_in_of (Functions.session_renewed "a" 1000) = Some (JNum 1000) /\
  expires_in_of (Functions.session_renewed "b" 1000) = Some (JNum 1000) /\
  ~ (1000 < 1000).
Proof. cbn. repeat split; try reflexivity. lia. Qed.

(** C4 (amended). While an activated key is alive on the clocks a call
    reads, every call is answered SESSION_RENEWED with the expiry minus
    the call's time reading; the calls read the store and write
    nothing, so the stored rows stay as they are.  Between two calls
    [expires_in] does not grow when the clock has not gone back, and it
    shrinks when the clock's second has advanced.  Stated for
    [onRequest] and for the second worker revision. *)
Theorem renewal_is_read_only :
  (forall (request : Request) (data : Json) (cardKey : string) (row : Functions.CardKey)
          (calls : list Timeline) (σ : Functions.DB),
      method request = "POST" -> body request = inr data ->
      Functions.CardValidationSchema_parse data = inr cardKey ->
      Functions.card_keys σ !! cardKey = Some row ->
      Functions.is_used row = true ->
      Forall (fun env : Timeline =>
                db_fault (env 0%nat) = None /\
                db_now (env 0%nat) < Functions.expires_at row /\
                js_now (env 1%nat) / 1000 <= Functions.expires_at row) calls ->
      let remaining (env : Timeline) := Functions.expires_at row - js_now (env 1%nat) / 1000 in
      let run := serve Functions.onRequest (map (pair request) calls) σ in
      run.1 = map (fun env => inr (Functions.session_renewed (uuid (env 2%nat)) (remaining env))) calls /\
      Functions.card_keys run.2 = Functions.card_keys σ /\
      Functions.journal run.2 = (Functions.journal σ ++ map (fun _ => Selected cardKey) calls)%list /\
      (forall e1 e2 : Timeline,
          (js_now (e1 1%nat) / 1000 <= js_now (e2 1%nat) / 1000 -> remaining e2 <= remaining e1) /\
          (js_now (e1 1%nat) / 1000 < js_now (e2 1%nat) / 1000 -> remaining e2 < remaining e1))) /\
  (forall (request : Request) (data : Json) (cardKey : string) (row : Worker.Row) (first : Z)
          (calls : list Timeline) (σ : Worker.DB),
      method request = "POST" -> body request = inr data ->
      Worker.CardValidationSchema_parse data = inr cardKey ->
      Worker.card_keys σ !! cardKey = Some row ->
      Worker.is_used row = true -> Worker.first_used_at row = Some first ->
      Forall (fun env : Timeline =>
                db_fault (env 0%nat) = None /\ db_fault (env 1%nat) = None /\
                db_now (env 0%nat) < first + 86400 /\
                db_now (env 1%nat) <= first + 86400) calls ->
      let remaining (env : Timeline) := first + 86400 - db_now (env 1%nat) in
      let run := serve WorkerStore.fetch (map (pair request) calls) σ in
      run.1 = map (fun env => inr (WorkerStore.session_response request
                                     (Worker.session_renewed_body (remaining env))
                                     (uuid (env 2%nat)) (remaining env))) calls /\
      Worker.card_keys run.2 = Worker.card_keys σ /\
      Worker.journal run.2 =
        (Worker.journal σ ++ flat_map (fun _ => [Selected cardKey; ClockRead]) calls)%list /\
      (forall e1 e2 : Timeline,
          (db_now (e1 1%nat) <= db_now (e2 1%nat) -> remaining e2 <= remaining e1) /\
          (db_now (e1 1%nat) < db_now (e2 1%nat) -> remaining e2 < remaining e1))).
Proof.
  split.
  - intros request data cardKey row calls σ Hm Hb Hk Hrow Hu Hcalls. cbn zeta.
    split; [|split; [|split]].
    4:{ intros e1 e2. split; lia. }
    all: revert σ Hrow; induction Hcalls as [|env calls (Hup & Hlive & Hle) _ IH]; intros σ Hrow;
      [ cbn; rewrite ?app_nil_r; reflexivity | ].
    all: apply not_expired_spec in Hlive.
    all: cbn [map]; rewrite serve_cons;
      rewrite (onRequest_renewed request env σ Hm _ Hb _ Hk Hup _ Hrow Hlive Hu Hle);
      cbn [fst snd].
    + f_equal. apply (IH (Functions.logged (Selected cardKey) σ) Hrow).
    + apply (IH (Functions.logged (Selected cardKey) σ) Hrow).
    + rewrite (IH (Functions.logged (Selected cardKey) σ) Hrow). cbn.
      rewrite <- app_assoc. reflexivity.
  - intros request data cardKey row first calls σ Hm Hb Hk Hrow Hu Hfirst Hcalls. cbn zeta.
    split; [|split; [|split]].
    4:{ intros e1 e2. split; lia. }
    all: revert σ Hrow;
      induction Hcalls as [|env calls (Hup & Hclock & Hlive & Hle) _ IH]; intros σ Hrow;
      [ cbn; rewrite ?app_nil_r; reflexivity | ].
    all: assert (Hfilter : WorkerStore.read_filter row (db_now (env 0%nat)) = true)
      by (apply store_filter_spec; rewrite Hfirst; lia).
    all: assert (Hle' : db_now (env 1%nat) <= Worker.js_number (Worker.first_used_at row) + 86400)
      by (rewrite Hfirst; exact Hle).
    all: cbn [map flat_map]; rewrite serve_cons;
      rewrite (store_renewed request env σ Hm _ Hb _ Hk Hup _ Hrow Hfilter Hclock Hu Hle');
      cbn [fst snd]; rewrite ?Hfirst; cbn [Worker.js_number default].
    + f_equal. apply (IH (Worker.logged ClockRead (Worker.logged (Selected cardKey) σ)) Hrow).
    + apply (IH (Worker.logged ClockRead (Worker.logged (Selected cardKey) σ)) Hrow).
    + rewrite (IH (Worker.logged ClockRead (Worker.logged (Selected cardKey) σ)) Hrow). cbn.
      rewrite <- !app_assoc. reflexivity.
Qed.

Lemma renewal_is_read_only_witness :
  (let live := {| Functions.expires_at := 5000; Functions.is_used := true;
                  Functions.activated_at := Some 1000 |} in
   let calls := [frozen 4000 "a"; frozen 4100 "b"] in
   let remaining (env : Timeline) := 5000 - js_now (env 1%nat) / 1000 in
   let run := serve Functions.onRequest (map (pair (post key16)) calls)
                (functions_store key16 live) in
   run.1 = map (fun env => inr (Functions.session_renewed (uuid (env 2%nat)) (remaining env))) calls /\
   Functions.card_keys run.2 = Functions.card_keys (functions_store key16 live) /\
   Functions.journal run.2 = ([] ++ map (fun _ => Selected key16) calls)%list /\
   (forall e1 e2 : Timeline,
       (js_now (e1 1%nat) / 1000 <= js_now (e2 1%nat) / 1000 -> remaining e2 <= remaining e1) /\
       (js_now (e1 1%nat) / 1000 < js_now (e2 1%nat) / 1000 -> remaining e2 < remaining e1))) /\
  (let live := {| Worker.is_used := true; Worker.first_used_at := Some 1000 |} in
   let calls := [frozen 1100 "a"; frozen 1200 "b"] in
   let remaining (env : Timeline) := 1000 + 86400 - db_now (env 1%nat) in
   let run := serve WorkerStore.fetch (map (pair (post key25)) calls)
                (worker_store key25 live) in
   run.1 = map (fun env => inr (WorkerStore.session_response (post key25)
                                  (Worker.session_renewed_body (remaining env))
                                  (uuid (env 2%nat)) (remaining env))) calls /\
   Worker.card_keys run.2 = Worker.card_keys (worker_store key25 live) /\
   Worker.journal run.2 =
     ([] ++ flat_map (fun _ => [Selected key25; ClockRead]) calls)%list /\
   (forall e1 e2 : Timeline,
       (db_now (e1 1%nat) <= db_now (e2 1%nat) -> remaining e2 <= remaining e1) /\
       (db_now (e1 1%nat) < db_now (e2 1%nat) -> remaining e2 < remaining e1))).
Proof.
  destruct renewal_is_read_only as (HF & HS). split.
  - apply (HF (post key16) (JObj [("cardKey", JStr key16)]) key16
              {| Functions.expires_at := 5000; Functions.is_used := true;
                 Functions.activated_at := Some 1000 |}
              [frozen 4000 "a"; frozen 4100 "b"]
              (functions_store key16 {| Functions.expires_at := 5000; Functions.is_used := true;
                                        Functions.activated_at := Some 1000 |}));
      try reflexivity.
    repeat constructor; vm_compute; discriminate.
  - apply (HS (post key25) (JObj [("cardKey", JStr key25)]) key25
              {| Worker.is_used := true; Worker.first_used_at := Some 1000 |} 1000
              [frozen 1100 "a"; frozen 1200 "b"]
              (worker_store key25 {| Worker.is_used := true; Worker.first_used_at := Some 1000 |}));
      try reflexivity.
    repeat constructor; vm_compute; discriminate.
Defined.

(** ** C5 *)

(** C5. Unknown-code opacity: for one request, a store that does not
    hold the code and a store whose row for the code is dropped by the
    filtered read give the same response, the INVALID_CARD one -- in
    [onRequest] and in both worker revisions. *)
Theorem unknown_code_opacity :
  (forall (request : Request) (data : Json) (cardKey : string) (env1 env2 : Timeline)
          (σ1 σ2 : Functions.DB) (row : Functions.CardKey),
      method request = "POST" -> body request = inr data ->
      Functions.CardValidationSchema_parse data = inr cardKey ->
      db_fault (env1 0%nat) = None -> db_fault (env2 0%nat) = None ->
      Functions.card_keys σ1 !! cardKey = None ->
      Functions.card_keys σ2 !! cardKey = Some row ->
      Functions.expires_at row <= db_now (env2 0%nat) ->
      (interp (Functions.onRequest request) env1 0 σ1).1 = inr Functions.invalid_card /\
      (interp (Functions.onRequest request) env2 0 σ2).1 = inr Functions.invalid_card) /\
  (forall (request : Request) (data : Json) (cardKey : string) (env1 env2 : Timeline)
          (σ1 σ2 : Worker.DB) (row : Worker.Row),
      method request = "POST" -> body request = inr data ->
      Worker.CardValidationSchema_parse data = inr cardKey ->
      db_fault (env1 0%nat) = None -> db_fault (env2 0%nat) = None ->
      Worker.card_keys σ1 !! cardKey = None ->
      Worker.card_keys σ2 !! cardKey = Some row ->
      WorkerStore.read_filter row (db_now (env2 0%nat)) = false ->
      (interp (WorkerStore.fetch request) env1 0 σ1).1 =
        inr (WorkerStore.json_response request Worker.invalid_card_body) /\
      (interp (WorkerStore.fetch request) env2 0 σ2).1 =
        inr (WorkerStore.json_response request Worker.invalid_card_body)) /\
  (forall (request : Request) (data : Json) (cardKey : string) (env1 env2 : Timeline)
          (σ1 σ2 : Worker.DB) (row : Worker.Row),
      method request = "POST" -> body request = inr data ->
      Worker.CardValidationSchema_parse data = inr cardKey ->
      db_fault (env1 0%nat) = None -> db_fault (env2 0%nat) = None ->
      Worker.card_keys σ1 !! cardKey = None ->
      Worker.card_keys σ2 !! cardKey = Some row ->
      WorkerLocal.read_filter row (db_now (env2 0%nat)) = false ->
      (interp (WorkerLocal.fetch request) env1 0 σ1).1 =
        inr (Response_json Worker.invalid_card_body 200) /\
      (interp (WorkerLocal.fetch request) env2 0 σ2).1 =
        inr (Response_json Worker.invalid_card_body 200)).
Proof.
  split; [|split].
  - intros request data cardKey env1 env2 σ1 σ2 row Hm Hb Hk H1 H2 Habs Hrow Hexp.
    assert (Hfilter : Functions.not_expired row (db_now (env2 0%nat)) = false).
    { destruct (Functions.not_expired row (db_now (env2 0%nat))) eqn:E; [|reflexivity].
      apply not_expired_spec in E. lia. }
    rewrite (onRequest_not_found request env1 σ1 Hm _ Hb _ Hk H1 Habs).
    rewrite (onRequest_filtered request env2 σ2 Hm _ Hb _ Hk H2 _ Hrow Hfilter).
    split; reflexivity.
  - intros request data cardKey env1 env2 σ1 σ2 row Hm Hb Hk H1 H2 Habs Hrow Hfilter.
    rewrite (store_not_found request env1 σ1 Hm _ Hb _ Hk H1 Habs).
    rewrite (store_filtered request env2 σ2 Hm _ Hb _ Hk H2 _ Hrow Hfilter).
    split; reflexivity.
  - intros request data cardKey env1 env2 σ1 σ2 row Hm Hb Hk H1 H2 Habs Hrow Hfilter.
    rewrite (local_not_found request env1 σ1 Hm _ Hb _ Hk H1 Habs).
    rewrite (local_filtered request env2 σ2 Hm _ Hb _ Hk H2 _ Hrow Hfilter).
    split; reflexivity.
Qed.

Lemma unknown_code_opacity_witness :
  ((interp (Functions.onRequest (post key16)) (frozen 5000 "a") 0 functions_empty).1
     = inr Functions.invalid_card /\
   (interp (Functions.onRequest (post key16)) (frozen 5000 "b") 0
      (functions_store key16 {| Functions.expires_at := 4000; Functions.is_used := true;
                                Functions.activated_at := Some 1000 |})).1
     = inr Functions.invalid_card) /\
  ((interp (WorkerStore.fetch (post key25)) (frozen 86500 "a") 0 worker_empty).1
     = inr (WorkerStore.json_response (post key25) Worker.invalid_card_body) /\
   (interp (WorkerStore.fetch (post key25)) (frozen 86500 "b") 0
      (worker_store key25 {| Worker.is_used := true; Worker.first_used_at := Some 100 |})).1
     = inr (WorkerStore.json_response (post key25) Worker.invalid_card_body)) /\
  ((interp (WorkerLocal.fetch (post key25)) (frozen 90000 "a") 0 worker_empty).1
     = inr (Response_json Worker.invalid_card_body 200) /\
   (interp (WorkerLocal.fetch (post key25)) (frozen 90000 "b") 0
      (worker_store key25 {| Worker.is_used := true; Worker.first_used_at := Some 100 |})).1
     = inr (Response_json Worker.invalid_card_body 200)).
Proof.
  destruct unknown_code_opacity as (HF & HS & HL).
  split; [|split].
  - eapply (HF (post key16) _ key16); try reflexivity. cbn. lia.
  - eapply (HS (post key25) _ key25); reflexivity.
  - eapply (HL (post key25) _ key25); reflexivity.
Defined.

(** ** C6 *)

(** C6, as stated, fails: filter read at 4999, branch read at 5000,
    expiry 5000 -- the renewal goes out with [expires_in] 0. *)
Lemma renewal_remaining_can_be_zero :
  let used := {| Functions.expires_at := 5000; Functions.is_used := true;
                 Functions.activated_at := Some 1000 |} in
  let run := interp (Functions.onRequest (post key16)) (clocks 4999 5000 "t") 0
               (functions_store key16 used) in
  run.1 = inr (Functions.session_renewed "t" 0) /\
  code_of (Functions.session_renewed "t" 0) = Some (JStr "SESSION_RENEWED") /\
  expires_in_of (Functions.session_renewed "t" 0) = Some (JNum 0) /\
  ~ (0 < 0).
Proof. cbn. repeat split; try reflexivity. lia. Qed.

(** C6 (amended). A SESSION_RENEWED response answers a POST whose body
    the schema accepted, and carries the expiry of the row of the
    requested key minus the branch's time reading -- the stored
    [expires_at] in [onRequest], [first_used_at + 86400] in the second
    worker revision; that value is never negative, and it is positive
    when the branch reads the time the filter read. *)
Theorem renewal_remaining_time :
  (forall (request : Request) (env : Timeline) (σ σ' : Functions.DB) (resp : Response),
      interp (Functions.onRequest request) env 0 σ = (inr resp, σ') ->
      code_of resp = Some (JStr "SESSION_RENEWED") ->
      let now := js_now (env 1%nat) / 1000 in
      exists data cardKey row,
        method request = "POST" /\ body request = inr data /\
        Functions.CardValidationSchema_parse data = inr cardKey /\
        Functions.card_keys σ !! cardKey = Some row /\
        Functions.is_used row = true /\
        expires_in_of resp = Some (JNum (Functions.expires_at row - now)) /\
        0 <= Functions.expires_at row - now /\
        (now = db_now (env 0%nat) -> 0 < Functions.expires_at row - now)) /\
  (forall (request : Request) (env : Timeline) (σ σ' : Worker.DB) (resp : Response),
      interp (WorkerStore.fetch request) env 0 σ = (inr resp, σ') ->
      code_of resp = Some (JStr "SESSION_RENEWED") ->
      let now := db_now (env 1%nat) in
      exists data cardKey row first,
        method request = "POST" /\ body request = inr data /\
        Worker.CardValidationSchema_parse data = inr cardKey /\
        Worker.card_keys σ !! cardKey = Some row /\
        Worker.is_used row = true /\
        first = Worker.js_number (Worker.first_used_at row) /\
        expires_in_of resp = Some (JNum (first + 86400 - now)) /\
        0 <= first + 86400 - now /\
        (now = db_now (env 0%nat) -> is_Some (Worker.first_used_at row) ->
         0 < first + 86400 - now)).
Proof.
  split.
  - intros request env σ σ' resp. split_onRequest request env σ; intros Hrun Hcode;
      inversion Hrun; subst; try discriminate.
    intros now. exists data, cardKey, row.
    repeat (split; [first [assumption | reflexivity]|]).
    apply not_expired_spec in Hfilter. subst now. lia.
  - intros request env σ σ' resp. split_store_fetch request env σ; intros Hrun Hcode;
      inversion Hrun; subst; try discriminate.
    + exfalso. clear -Hcode. unfold WorkerStore.handleOptions in Hcode.
      destruct (origin request), (acr_method request), (acr_headers request); discriminate.
    + intros now. exists data, cardKey, row, (Worker.js_number (Worker.first_used_at row)).
      repeat (split; [first [assumption | reflexivity]|]).
      split; [lia|].
      intros Hsame [first Hfirst]. apply store_filter_spec in Hfilter.
      rewrite Hfirst in *. cbn in *. subst now. lia.
Qed.

Lemma renewal_remaining_time_witness :
  (exists data cardKey row,
      method (post key16) = "POST" /\ body (post key16) = inr data /\
      Functions.CardValidationSchema_parse data = inr cardKey /\
      Functions.card_keys
        (functions_store key16 {| Functions.expires_at := 5000; Functions.is_used := true;
                                  Functions.activated_at := Some 1000 |}) !! cardKey = Some row /\
      Functions.is_used row = true /\
      expires_in_of (Functions.session_renewed "t" 1000)
        = Some (JNum (Functions.expires_at row - 4000)) /\
      0 <= Functions.expires_at row - 4000 /\
      (4000 = 4000 -> 0 < Functions.expires_at row - 4000)) /\
  (exists data cardKey row first,
      method (post key25) = "POST" /\ body (post key25) = inr data /\
      Worker.CardValidationSchema_parse data = inr cardKey /\
      Worker.card_keys
        (worker_store key25 {| Worker.is_used := true; Worker.first_used_at := Some 1000 |})
        !! cardKey = Some row /\
      Worker.is_used row = true /\
      first = Worker.js_number (Worker.first_used_at row) /\
      expires_in_of (WorkerStore.session_response (post key25)
                       (Worker.session_renewed_body 86300) "t" 86300)
        = Some (JNum (first + 86400 - 1100)) /\
      0 <= first + 86400 - 1100 /\
      (1100 = 1100 -> is_Some (Worker.first_used_at row) -> 0 < first + 86400 - 1100)).
Proof.
  destruct renewal_remaining_time as [HF HS]. split.
  - apply (HF (post key16) (frozen 4000 "t") _
              (Functions.logged (Selected key16)
                 (functions_store key16 {| Functions.expires_at := 5000; Functions.is_used := true;
                                           Functions.activated_at := Some 1000 |}))
              (Functions.session_renewed "t" 1000)); reflexivity.
  - apply (HS (post key25) (frozen 1100 "t") _
              (Worker.logged ClockRead (Worker.logged (Selected key25)
                 (worker_store key25 {| Worker.is_used := true;
                                        Worker.first_used_at := Some 1000 |})))
              (WorkerStore.session_response (post key25)
                 (Worker.session_renewed_body 86300) "t" 86300)); reflexivity.
Defined.

(** ** C7 *)

Lemma grouped_key_rejected (fields : list (string * Json)) (s : string) :
  js_get "cardKey" fields = Some (JStr s) ->
  grouped_pattern s = false ->
  exists errors, Worker.CardValidationSchema_parse (JObj fields) = inl (ZodError errors).
Proof.
  intros Hget Hpat. unfold Worker.CardValidationSchema_parse, parse_cardKey, Worker.cardKey_checks.
  rewrite Hget, Hpat. eexists. reflexivity.
Qed.

Lemma flat_key_rejected (fields : list (string * Json)) (s : string) :
  js_get "cardKey" fields = Some (JStr s) ->
  String.length s <> 16%nat \/ flat_pattern s = false ->
  exists errors, Functions.CardValidationSchema_parse (JObj fields) = inl (ZodError errors).
Proof.
  intros Hget Hbad.
  unfold Functions.CardValidationSchema_parse, parse_cardKey, Functions.cardKey_checks.
  rewrite Hget.
  destruct (Nat.eqb_spec (String.length s) 16) as [Hlen|Hlen];
    destruct (flat_pattern s) eqn:Hpat; cbn; eauto.
  destruct Hbad; [contradiction|discriminate].
Qed.

(** In [onRequest] a key outside the pattern is answered INVALID_INPUT
    with status 400 and the store is neither read nor written. *)
Lemma onRequest_format_rejection (request : Request) (env : Timeline) (σ : Functions.DB)
    (fields : list (string * Json)) (s : string) :
  method request = "POST" -> body request = inr (JObj fields) ->
  js_get "cardKey" fields = Some (JStr s) ->
  String.length s <> 16%nat \/ flat_pattern s = false ->
  interp (Functions.onRequest request) env 0 σ = (inr Functions.invalid_input, σ) /\
  status Functions.invalid_input = 400 /\
  code_of Functions.invalid_input = Some (JStr "INVALID_INPUT").
Proof.
  intros Hm Hb Hget Hbad. destruct (flat_key_rejected _ _ Hget Hbad) as [errors Hp].
  rewrite (onRequest_bad_key request env σ Hm _ Hb _ Hp). repeat split.
Qed.

(** So does the first worker revision. *)
Lemma local_format_rejection (request : Request) (env : Timeline) (σ : Worker.DB)
    (fields : list (string * Json)) (s : string) :
  method request = "POST" -> body request = inr (JObj fields) ->
  js_get "cardKey" fields = Some (JStr s) ->
  grouped_pattern s = false ->
  exists resp,
    interp (WorkerLocal.fetch request) env 0 σ = (inr resp, σ) /\
    status resp = 400 /\ code_of resp = Some (JStr "INVALID_INPUT").
Proof.
  intros Hm Hb Hget Hbad. destruct (grouped_key_rejected _ _ Hget Hbad) as [errors Hp].
  rewrite (local_bad_key request env σ Hm _ Hb _ Hp). eexists. repeat split.
Qed.

(** The second worker revision builds the response without a status:
    INVALID_INPUT goes out with 200. *)
Lemma store_format_rejection (request : Request) (env : Timeline) (σ : Worker.DB)
    (fields : list (string * Json)) (s : string) :
  method request = "POST" -> body request = inr (JObj fields) ->
  js_get "cardKey" fields = Some (JStr s) ->
  grouped_pattern s = false ->
  exists resp,
    interp (WorkerStore.fetch request) env 0 σ = (inr resp, σ) /\
    status resp = 200 /\ code_of resp = Some (JStr "INVALID_INPUT").
Proof.
  intros Hm Hb Hget Hbad. destruct (grouped_key_rejected _ _ Hget Hbad) as [errors Hp].
  rewrite (store_bad_key request env σ Hm _ Hb _ Hp). eexists. repeat split.
Qed.

(** C7. The request [{cardKey: "bad-format"}] sent to the second worker
    revision is answered INVALID_INPUT and leaves the store untouched,
    but with HTTP status 200, not 400. *)
Theorem format_rejection_status_in_store_worker :
  let run := interp (WorkerStore.fetch (post "bad-format")) (frozen 1000 "t") 0 worker_empty in
  (exists resp, run.1 = inr resp /\
     code_of resp = Some (JStr "INVALID_INPUT") /\
     valid_of resp = Some (JBool false) /\
     status resp = 200 /\ status resp <> 400) /\
  run.2 = worker_empty.
Proof.
  cbn. split; [|reflexivity]. eexists. split; [reflexivity|]. repeat split. discriminate.
Qed.

(** ** C8 *)


(** Each of the three codes is answered on some input. *)
Example onRequest_rejections_occur :
  let dead := {| Functions.expires_at := 5000; Functions.is_used := true;
                 Functions.activated_at := Some 1000 |} in
  (interp (Functions.onRequest (post key16)) (frozen 4000 "t") 0 functions_empty).1
    = inr Functions.invalid_card /\
  (interp (Functions.onRequest (post key16)) (clocks 4000 6000 "t") 0
     (functions_store key16 dead)).1 = inr Functions.card_expired /\
  (interp (Functions.onRequest (post key16))
     (fun _ => {| db_now := 4000; db_fault := Some "D1_ERROR: no such table: card_keys";
                  js_now := 4000000; uuid := "t" |}) 0 functions_empty).1
    = inr Functions.server_error.
Proof. cbn. repeat split; reflexivity. Qed.

(** ** C9 *)

(** The only statement that writes a row stamps both columns. *)
Lemma store_activation_sets_both_fields (σ : Worker.DB) (cardKey : string) (t : Z) :
  Worker.card_keys (exec (WorkerStore.ActivateCard cardKey) t σ).2 !! cardKey =
    (fun _ => {| Worker.is_used := true; Worker.first_used_at := Some t |})
      <$> Worker.card_keys σ !! cardKey.
Proof. cbn. apply lookup_alter_eq. Qed.

Lemma store_reads_leave_rows (σ : Worker.DB) (cardKey : string) (t : Z) :
  Worker.card_keys (exec (WorkerStore.SelectCard cardKey) t σ).2 = Worker.card_keys σ /\
  Worker.card_keys (exec WorkerStore.SelectNow t σ).2 = Worker.card_keys σ.
Proof. split; reflexivity. Qed.

Lemma store_exec_consistent (X : Type) (q : WorkerStore.Query X) (t : Z) (σ : Worker.DB) :
  store_consistent σ -> store_consistent (exec q t σ).2.
Proof.
  intros H. destruct q; cbn; try exact H.
  intros key row. cbn. destruct (decide (cardKey = key)) as [->|Hne].
  - rewrite lookup_alter_eq. destruct (Worker.card_keys σ !! key); cbn; [|discriminate].
    intros Hrow. inversion Hrow. split; cbn; eauto.
  - rewrite lookup_alter_ne by done. apply H.
Qed.

(** The first revision's update never runs: three values are bound to
    its two placeholders. *)
Lemma local_exec_leaves_rows (X : Type) (q : WorkerLocal.Query X) (t : Z) (σ : Worker.DB) :
  Worker.card_keys (exec q t σ).2 = Worker.card_keys σ.
Proof. destruct q; reflexivity. Qed.

Lemma local_exec_consistent (X : Type) (q : WorkerLocal.Query X) (t : Z) (σ : Worker.DB) :
  store_consistent σ -> store_consistent (exec q t σ).2.
Proof.
  intros H key row. rewrite local_exec_leaves_rows. apply H.
Qed.

Lemma provisioned_consistent (σ : Worker.DB) : provisioned σ -> store_consistent σ.
Proof.
  intros H key row Hrow. destruct (H key row Hrow) as [Hu Hf].
  unfold row_consistent. rewrite Hu, Hf. split; [discriminate|]. intros [x Hx]. discriminate.
Qed.

(** C9. In every store the worker revisions can reach from provisioned
    rows -- by whole requests of either revision or by interleaved
    requests -- each row has [first_used_at] set exactly when [is_used]
    is true. *)
Theorem first_use_time_iff_used (σ : Worker.DB) :
  reachable σ -> store_consistent σ.
Proof.
  induction 1 as [σ Hp|σ request env _ IH|σ request env _ IH|σ requests sched _ IH].
  - apply provisioned_consistent, Hp.
  - apply (interp_keeps store_consistent local_exec_consistent), IH.
  - apply (interp_keeps store_consistent store_exec_consistent), IH.
  - apply (pool_run_keeps store_consistent store_exec_consistent), IH.
Qed.

Lemma first_use_time_iff_used_witness :
  store_consistent
    (interp (WorkerStore.fetch (post key25)) (frozen 1000 "t") 0
       (worker_store key25 {| Worker.is_used := false; Worker.first_used_at := None |})).2.
Proof.
  apply first_use_time_iff_used. apply reach_store. apply reach_provisioned.
  intros key row Hrow. cbn in Hrow. apply lookup_singleton_Some in Hrow as [_ <-].
  split; reflexivity.
Defined.

(** The store of that witness: the row is used and stamped. *)
Example activated_row_is_stamped :
  Worker.card_keys
    (interp (WorkerStore.fetch (post key25)) (frozen 1000 "t") 0
       (worker_store key25 {| Worker.is_used := false; Worker.first_used_at := None |})).2
    !! key25
  = Some {| Worker.is_used := true; Worker.first_used_at := Some 1000 |}.
Proof. reflexivity. Qed.

(** Were the update run with its placeholders filled in order, it
    would still stamp both columns of the rows it touches. *)
Lemma local_statement_consistent (X : Type) (q : WorkerLocal.Query X) (t : Z) (σ : Worker.DB) :
  store_consistent σ -> store_consistent (WorkerLocal.run_statement q t σ).2.
Proof.
  intros H. destruct q; cbn -[string_of_Z]; try exact H.
  intros key row. cbn -[string_of_Z]. destruct (decide (string_of_Z second = key)) as [Heq|Hne].
  - subst key. rewrite lookup_alter_eq.
    destruct (Worker.card_keys σ !! string_of_Z second); cbn -[string_of_Z]; [|discriminate].
    intros Hrow. inversion Hrow. split; cbn; eauto.
  - rewrite lookup_alter_ne by done. apply H.
Qed.

(** ** C10 *)

(** In [onRequest] one time reading for the filter and for the branch
    leaves CARD_EXPIRED out of reach. *)
Lemma onRequest_one_clock_never_expired (request : Request) (env : Timeline) (σ : Functions.DB) :
  js_now (env 1%nat) / 1000 = db_now (env 0%nat) ->
  forall resp σ',
    interp (Functions.onRequest request) env 0 σ = (inr resp, σ') ->
    code_of resp <> Some (JStr "CARD_EXPIRED").
Proof.
  intros Hsame resp σ'. split_onRequest request env σ; intros Hrun;
    inversion Hrun; subst; cbn; try discriminate.
  apply not_expired_spec in Hfilter. lia.
Qed.

(** C10. Second worker revision, a row first used at 0, every clock
    reading of the request equal to 200000: the row passes the filtered
    read although 0 + 86400 < 200000, and the branch answers
    CARD_EXPIRED on that same reading. *)
Theorem expired_branch_reached_on_one_clock :
  let used := {| Worker.is_used := true; Worker.first_used_at := Some 0 |} in
  let env := frozen 200000 "t" in
  let run := interp (WorkerStore.fetch (post key25)) env 0 (worker_store key25 used) in
  db_now (env 0%nat) = db_now (env 1%nat) /\
  WorkerStore.read_filter used (db_now (env 0%nat)) = true /\
  0 + 86400 < db_now (env 0%nat) /\
  run.1 = inr (WorkerStore.json_response (post key25) Worker.card_expired_body) /\
  code_of (WorkerStore.json_response (post key25) Worker.card_expired_body)
    = Some (JStr "CARD_EXPIRED").
Proof. cbn. repeat split; reflexivity. Qed.

(** ** The scenarios of the specification, on the second worker revision *)

Example scenario_unknown_code :
  (interp (WorkerStore.fetch (post key25)) (frozen 1000 "t") 0 worker_empty).1
    = inr (WorkerStore.json_response (post key25) Worker.invalid_card_body).
Proof. reflexivity. Qed.

Example scenario_activate_renew_expire :
  let fresh := {| Worker.is_used := false; Worker.first_used_at := None |} in
  let T0 := 1000 in
  let run := serve WorkerStore.fetch
               [(post key25, frozen T0 "a");
                (post key25, frozen (T0 + 100) "b");
                (post key25, frozen (T0 + 86401) "c")]
               (worker_store key25 fresh) in
  run.1 =
    [inr (WorkerStore.session_response (post key25) (Worker.activation_success_body 86400) "a" 86400);
     inr (WorkerStore.session_response (post key25) (Worker.session_renewed_body 86300) "b" 86300);
     inr (WorkerStore.json_response (post key25) Worker.card_expired_body)] /\
  Worker.card_keys run.2 !! key25
    = Some {| Worker.is_used := true; Worker.first_used_at := Some T0 |}.
Proof. vm_compute. split; reflexivity. Qed.

(** * Further properties of the handlers *)

Ltac split_local_fetch request env σ :=
  let Hpost := fresh "Hpost" in let Hbody := fresh "Hbody" in
  let Hkey := fresh "Hkey" in let Hup := fresh "Hup" in
  let Hrow := fresh "Hrow" in let Hfilter := fresh "Hfilter" in
  let Hu := fresh "Hu" in let Hnow := fresh "Hnow" in let Hrun := fresh "Hrun" in
  destruct (decide (method request = "POST")) as [Hpost|Hpost];
  [ destruct (body request) as [?msg|?data] eqn:Hbody;
    [ rewrite (local_bad_json request env σ Hpost _ Hbody)
    | match type of Hbody with _ = inr ?data =>
      destruct (Worker.CardValidationSchema_parse data) as [?e|?cardKey] eqn:Hkey;
      [ let errors := fresh "errors" in
        destruct (parse_cardKey_rejects _ _ _ Hkey) as [errors ->];
        rewrite (local_bad_key request env σ Hpost _ Hbody _ Hkey)
      | match type of Hkey with _ = inr ?k =>
        destruct (db_fault (env 0%nat)) as [?msg|] eqn:Hup;
        [ rewrite (local_store_down request env σ Hpost _ Hbody _ Hkey _ Hup)
        | destruct (Worker.card_keys σ !! k) as [?row|] eqn:Hrow;
          [ match type of Hrow with _ = Some ?row =>
            destruct (WorkerLocal.read_filter row (db_now (env 0%nat))) eqn:Hfilter;
            [ destruct (Worker.is_used row) eqn:Hu;
              [ destruct (Z_lt_le_dec (Worker.js_number (Worker.first_used_at row) + 86400)
                                      (js_now (env 1%nat) / 1000)) as [Hnow|Hnow];
                [ rewrite (local_expired request env σ Hpost _ Hbody _ Hkey Hup _ Hrow Hfilter Hu Hnow)
                | rewrite (local_renewed request env σ Hpost _ Hbody _ Hkey Hup _ Hrow Hfilter Hu Hnow) ]
              | destruct (local_activation_rejected request env σ Hpost _ Hbody _ Hkey Hup _ Hrow Hfilter Hu)
                  as [?msg Hrun]; rewrite Hrun ]
            | rewrite (local_filtered request env σ Hpost _ Hbody _ Hkey Hup _ Hrow Hfilter) ]
            end
          | rewrite (local_not_found request env σ Hpost _ Hbody _ Hkey Hup Hrow) ] ]
        end ]
      end ]
  | rewrite (local_other_method request env σ Hpost) ].

(** ** The statements a request runs *)

(** A request runs no statement unless it is a POST whose body passed
    the schema; then it selects the key once and, at most, updates that
    same key once after the select. *)
Theorem statements_of_a_request :
  (forall (request : Request) (env : Timeline) (σ : Functions.DB),
      exists evs,
        Functions.journal (interp (Functions.onRequest request) env 0 σ).2
          = (Functions.journal σ ++ evs)%list /\
        (evs = [] \/
         exists data cardKey,
           method request = "POST" /\ body request = inr data /\
           Functions.CardValidationSchema_parse data = inr cardKey /\
           (evs = [Selected cardKey] \/ evs = [Selected cardKey; Updated cardKey]))) /\
  (forall (request : Request) (env : Timeline) (σ : Worker.DB),
      exists evs,
        Worker.journal (interp (WorkerStore.fetch request) env 0 σ).2
          = (Worker.journal σ ++ evs)%list /\
        (evs = [] \/
         exists data cardKey,
           method request = "POST" /\ body request = inr data /\
           Worker.CardValidationSchema_parse data = inr cardKey /\
           (evs = [Selected cardKey] \/ evs = [Selected cardKey; ClockRead] \/
            evs = [Selected cardKey; ClockRead; Updated cardKey]))).
Proof.
  split.
  - intros request env σ. split_onRequest request env σ; cbn [fst snd];
      first [ exists []; split; [symmetry; apply app_nil_r | left; reflexivity]
            | eexists; split; [reflexivity|]; right; eauto 10 ].
  - intros request env σ. split_store_fetch request env σ; cbn [fst snd];
      first [ exists []; split; [symmetry; apply app_nil_r | left; reflexivity]
            | eexists; split; [reflexivity|]; right; eauto 10
            | exists [Selected cardKey; ClockRead]; split;
              [cbn; rewrite <- app_assoc; reflexivity | right; eauto 10] ].
Qed.

(** ** Rows change with ACTIVATION_SUCCESS only *)

(** Every request ends in a response.  The rows after it are the rows
    before it unless the code is ACTIVATION_SUCCESS; and with that code
    the rows did change: the row of the requested key, which was
    unused, is replaced by a used one, and no other row is touched. *)
Theorem rows_change_only_on_activation :
  (forall (request : Request) (env : Timeline) (σ : Functions.DB),
      exists resp σ',
        interp (Functions.onRequest request) env 0 σ = (inr resp, σ') /\
        (code_of resp <> Some (JStr "ACTIVATION_SUCCESS") ->
         Functions.card_keys σ' = Functions.card_keys σ) /\
        (code_of resp = Some (JStr "ACTIVATION_SUCCESS") ->
         Functions.card_keys σ' <> Functions.card_keys σ /\
         exists data cardKey row row',
           body request = inr data /\
           Functions.CardValidationSchema_parse data = inr cardKey /\
           Functions.card_keys σ !! cardKey = Some row /\ Functions.is_used row = false /\
           Functions.card_keys σ' = <[cardKey := row']> (Functions.card_keys σ) /\
           Functions.is_used row' = true)) /\
  (forall (request : Request) (env : Timeline) (σ : Worker.DB),
      exists resp σ',
        interp (WorkerStore.fetch request) env 0 σ = (inr resp, σ') /\
        (code_of resp <> Some (JStr "ACTIVATION_SUCCESS") ->
         Worker.card_keys σ' = Worker.card_keys σ) /\
        (code_of resp = Some (JStr "ACTIVATION_SUCCESS") ->
         Worker.card_keys σ' <> Worker.card_keys σ /\
         exists data cardKey row row',
           body request = inr data /\
           Worker.CardValidationSchema_parse data = inr cardKey /\
           Worker.card_keys σ !! cardKey = Some row /\ Worker.is_used row = false /\
           Worker.card_keys σ' = <[cardKey := row']> (Worker.card_keys σ) /\
           Worker.is_used row' = true)).
Proof.
  split.
  - intros request env σ. split_onRequest request env σ; do 2 eexists;
      (split; [reflexivity|]);
      (split; [intros Hne; first [reflexivity | exfalso; apply Hne; reflexivity]
              |intros Hcode; try discriminate]).
    split.
    + cbn. intros Heq. apply (f_equal (fun m => m !! cardKey)) in Heq.
      rewrite lookup_insert_eq, Hrow in Heq. inversion Heq as [Hrows].
      rewrite <- Hrows in Hu. discriminate.
    + exists data, cardKey, row. eexists. repeat (split; [first [eassumption | reflexivity]|]).
      split; reflexivity.
  - intros request env σ. split_store_fetch request env σ; do 2 eexists;
      (split; [reflexivity|]);
      (split; [intros Hne; first [reflexivity | exfalso; apply Hne; reflexivity]
              |intros Hcode; try discriminate]).
    + exfalso. clear -Hcode. unfold WorkerStore.handleOptions in Hcode.
      destruct (origin request), (acr_method request), (acr_headers request); discriminate.
    + split.
      * cbn. intros Heq. apply (f_equal (fun m => m !! cardKey)) in Heq.
        rewrite lookup_insert_eq, Hrow in Heq. inversion Heq as [Hrows].
        rewrite <- Hrows in Hu. discriminate.
      * exists data, cardKey, row. eexists. repeat (split; [first [eassumption | reflexivity]|]).
        split; reflexivity.
Qed.

(** ** What no schedule of requests does *)

Lemma functions_exec_keys (X : Type) (q : Functions.Query X) (t : Z) (σ : Functions.DB)
    (keys : gset string) :
  dom (Functions.card_keys σ) = keys -> dom (Functions.card_keys (exec q t σ).2) = keys.
Proof.
  intros H. destruct q; cbn; [exact H|]. rewrite dom_alter_L. exact H.
Qed.

Lemma store_exec_keys (X : Type) (q : WorkerStore.Query X) (t : Z) (σ : Worker.DB)
    (keys : gset string) :
  dom (Worker.card_keys σ) = keys -> dom (Worker.card_keys (exec q t σ).2) = keys.
Proof.
  intros H. destruct q; cbn; try exact H. rewrite dom_alter_L. exact H.
Qed.

(** No request creates or deletes a row, however the requests in
    flight are interleaved. *)
Theorem rows_are_never_created_or_deleted :
  (forall (requests : list Request) (sched : list (nat * Instant)) (σ : Functions.DB),
      dom (Functions.card_keys (pool_run (map Functions.onRequest requests) sched σ).2)
        = dom (Functions.card_keys σ)) /\
  (forall (requests : list Request) (sched : list (nat * Instant)) (σ : Worker.DB),
      dom (Worker.card_keys (pool_run (map WorkerStore.fetch requests) sched σ).2)
        = dom (Worker.card_keys σ)).
Proof.
  split; intros requests sched σ.
  - apply (pool_run_keeps (fun s => dom (Functions.card_keys s) = dom (Functions.card_keys σ))).
    + intros X q t s. apply functions_exec_keys.
    + reflexivity.
  - apply (pool_run_keeps (fun s => dom (Worker.card_keys s) = dom (Worker.card_keys σ))).
    + intros X q t s. apply store_exec_keys.
    + reflexivity.
Qed.

Definition functions_key_used (key : string) (σ : Functions.DB) : Prop :=
  exists row, Functions.card_keys σ !! key = Some row /\ Functions.is_used row = true.

Definition worker_key_used (key : string) (σ : Worker.DB) : Prop :=
  exists row, Worker.card_keys σ !! key = Some row /\ Worker.is_used row = true.

Lemma functions_exec_used (key : string) (X : Type) (q : Functions.Query X) (t : Z)
    (σ : Functions.DB) :
  functions_key_used key σ -> functions_key_used key (exec q t σ).2.
Proof.
  intros (row & Hrow & Hu). destruct q; cbn; [exists row; auto|].
  unfold functions_key_used. cbn. destruct (decide (cardKey = key)) as [->|Hne].
  - rewrite lookup_alter_eq, Hrow. cbn. eauto.
  - rewrite lookup_alter_ne by done. eauto.
Qed.

Lemma store_exec_used (key : string) (X : Type) (q : WorkerStore.Query X) (t : Z)
    (σ : Worker.DB) :
  worker_key_used key σ -> worker_key_used key (exec q t σ).2.
Proof.
  intros (row & Hrow & Hu). destruct q; cbn; try (exists row; auto; fail).
  unfold worker_key_used. cbn. destruct (decide (cardKey = key)) as [->|Hne].
  - rewrite lookup_alter_eq, Hrow. cbn. eauto.
  - rewrite lookup_alter_ne by done. eauto.
Qed.

(** A key that is used stays used: no request clears [is_used],
    however the requests in flight are interleaved. *)
Theorem is_used_is_never_cleared :
  (forall (key : string) (requests : list Request) (sched : list (nat * Instant))
          (σ : Functions.DB),
      functions_key_used key σ ->
      functions_key_used key (pool_run (map Functions.onRequest requests) sched σ).2) /\
  (forall (key : string) (requests : list Request) (sched : list (nat * Instant))
          (σ : Worker.DB),
      worker_key_used key σ ->
      worker_key_used key (pool_run (map WorkerStore.fetch requests) sched σ).2).
Proof.
  split; intros key requests sched σ H.
  - apply (pool_run_keeps (functions_key_used key)); [|exact H].
    intros X q t s. apply functions_exec_used.
  - apply (pool_run_keeps (worker_key_used key)); [|exact H].
    intros X q t s. apply store_exec_used.
Qed.

Lemma is_used_is_never_cleared_witness :
  let used := {| Worker.is_used := true; Worker.first_used_at := Some 1000 |} in
  let tick (t : Z) : Instant :=
    {| db_now := t; db_fault := None; js_now := t * 1000; uuid := "t" |} in
  worker_key_used key25
    (pool_run (map WorkerStore.fetch [post key25; post key25])
       [(0%nat, tick 2000); (1%nat, tick 2000); (1%nat, tick 90000); (0%nat, tick 90001)]
       (worker_store key25 used)).2 /\
  functions_key_used key16
    (pool_run (map Functions.onRequest [post key16])
       [(0%nat, tick 2000); (0%nat, tick 2000)]
       (functions_store key16 {| Functions.expires_at := 5000; Functions.is_used := true;
                                 Functions.activated_at := Some 1000 |})).2.
Proof.
  destruct is_used_is_never_cleared as [HF HS]. cbn zeta. split.
  - apply HS. eexists. split; [reflexivity|reflexivity].
  - apply HF. eexists. split; [reflexivity|reflexivity].
Defined.

(** ** An activated row under requests served one after another *)

(** Served one after another, requests leave the row of a used key
    exactly as it is: the first-use time (the stored expiry in
    [onRequest]) is fixed once and for all. *)
Theorem activated_row_is_immutable_in_sequence :
  (forall (key : string) (row : Functions.CardKey) (calls : list (Request * Timeline))
          (σ : Functions.DB),
      Functions.card_keys σ !! key = Some row -> Functions.is_used row = true ->
      Functions.card_keys (serve Functions.onRequest calls σ).2 !! key = Some row) /\
  (forall (key : string) (row : Worker.Row) (calls : list (Request * Timeline))
          (σ : Worker.DB),
      Worker.card_keys σ !! key = Some row -> Worker.is_used row = true ->
      Worker.card_keys (serve WorkerStore.fetch calls σ).2 !! key = Some row).
Proof.
  split; intros key row calls; induction calls as [|[request env] calls IH];
    intros σ Hrow Hu; try exact Hrow; rewrite serve_cons; cbn [snd]; apply IH; auto.
  - destruct (onRequest_call_effect key request env σ) as [[Hrows _]|(row' & Hrow' & Hu' & _)].
    + rewrite Hrows. exact Hrow.
    + congruence.
  - destruct (store_call_effect key request env σ) as [[Hrows _]|(row' & Hrow' & Hu' & _)].
    + rewrite Hrows. exact Hrow.
    + congruence.
Qed.

Lemma activated_row_is_immutable_in_sequence_witness :
  let used := {| Worker.is_used := true; Worker.first_used_at := Some 1000 |} in
  let live := {| Functions.expires_at := 5000; Functions.is_used := true;
                 Functions.activated_at := Some 1000 |} in
  Functions.card_keys
    (serve Functions.onRequest [(post key16, frozen 2000 "a"); (post key16, frozen 9000 "b")]
       (functions_store key16 live)).2 !! key16 = Some live /\
  Worker.card_keys
    (serve WorkerStore.fetch [(post key25, frozen 2000 "a"); (post key25, frozen 90000 "b")]
       (worker_store key25 used)).2 !! key25 = Some used.
Proof.
  destruct activated_row_is_immutable_in_sequence as [HF HS]. cbn zeta. split.
  - apply HF; reflexivity.
  - apply HS; reflexivity.
Defined.

(** ** The session cookie *)

(** In each revision a response sets a cookie exactly when its body
    says [valid: true], that is when its code is ACTIVATION_SUCCESS or
    SESSION_RENEWED; the cookie is the session cookie and its Max-Age
    is the [expires_in] of the body. *)
Theorem cookie_goes_with_valid :
  let cookie_rule (resp : Response) : Prop :=
    (valid_of resp = Some (JBool true) <->
     exists c, header "Set-Cookie" (headers resp) = Some c) /\
    (valid_of resp = Some (JBool true) <->
     code_of resp = Some (JStr "ACTIVATION_SUCCESS") \/
     code_of resp = Some (JStr "SESSION_RENEWED")) /\
    (valid_of resp = Some (JBool true) ->
     exists token n,
       header "Set-Cookie" (headers resp) = Some (session_cookie token n) /\
       expires_in_of resp = Some (JNum n)) in
  (forall (request : Request) (env : Timeline) (σ : Functions.DB),
      exists resp σ',
        interp (Functions.onRequest request) env 0 σ = (inr resp, σ') /\ cookie_rule resp) /\
  (forall (request : Request) (env : Timeline) (σ : Worker.DB),
      exists resp σ',
        interp (WorkerLocal.fetch request) env 0 σ = (inr resp, σ') /\ cookie_rule resp) /\
  (forall (request : Request) (env : Timeline) (σ : Worker.DB),
      exists resp σ',
        interp (WorkerStore.fetch request) env 0 σ = (inr resp, σ') /\ cookie_rule resp).
Proof.
  cbn zeta.
  assert (Hno : forall resp : Response,
             valid_of resp <> Some (JBool true) ->
             header "Set-Cookie" (headers resp) = None ->
             code_of resp <> Some (JStr "ACTIVATION_SUCCESS") ->
             code_of resp <> Some (JStr "SESSION_RENEWED") ->
             (valid_of resp = Some (JBool true) <->
              exists c, header "Set-Cookie" (headers resp) = Some c) /\
             (valid_of resp = Some (JBool true) <->
              code_of resp = Some (JStr "ACTIVATION_SUCCESS") \/
              code_of resp = Some (JStr "SESSION_RENEWED")) /\
             (valid_of resp = Some (JBool true) ->
              exists token n,
                header "Set-Cookie" (headers resp) = Some (session_cookie token n) /\
                expires_in_of resp = Some (JNum n))).
  { intros resp Hv Hh Ha Hr. repeat split; try (intros; contradiction).
    - intros [c Hc]. congruence.
    - intros [H|H]; contradiction. }
  assert (Hyes : forall (resp : Response) token n,
             valid_of resp = Some (JBool true) ->
             header "Set-Cookie" (headers resp) = Some (session_cookie token n) ->
             expires_in_of resp = Some (JNum n) ->
             code_of resp = Some (JStr "ACTIVATION_SUCCESS") \/
             code_of resp = Some (JStr "SESSION_RENEWED") ->
             (valid_of resp = Some (JBool true) <->
              exists c, header "Set-Cookie" (headers resp) = Some c) /\
             (valid_of resp = Some (JBool true) <->
              code_of resp = Some (JStr "ACTIVATION_SUCCESS") \/
              code_of resp = Some (JStr "SESSION_RENEWED")) /\
             (valid_of resp = Some (JBool true) ->
              exists token n,
                header "Set-Cookie" (headers resp) = Some (session_cookie token n) /\
                expires_in_of resp = Some (JNum n))).
  { intros resp token n Hv Hh He Hc. repeat split; eauto. }
  split; [|split].
  - intros request env σ. split_onRequest request env σ; do 2 eexists;
      (split; [reflexivity|]);
      first [ apply Hno; cbn; [discriminate|reflexivity|discriminate|discriminate]
            | eapply Hyes; cbn; [reflexivity|reflexivity|reflexivity|eauto] ].
  - intros request env σ. split_local_fetch request env σ; do 2 eexists;
      (split; [reflexivity|]);
      first [ apply Hno; cbn; [discriminate|reflexivity|discriminate|discriminate]
            | eapply Hyes; cbn; [reflexivity|reflexivity|reflexivity|eauto] ].
  - intros request env σ. split_store_fetch request env σ; do 2 eexists;
      (split; [reflexivity|]);
      first [ apply Hno; cbn; [discriminate|reflexivity|discriminate|discriminate]
            | eapply Hyes; cbn; [reflexivity|reflexivity|reflexivity|eauto]
            | apply Hno; unfold WorkerStore.handleOptions;
              destruct (origin request), (acr_method request), (acr_headers request);
              cbn; first [discriminate | reflexivity] ].
Qed.

(** ** Cross-origin headers of the second worker revision *)

(** Every response of the second worker revision -- pre-flight, 405,
    rejection, error or success -- allows the origin the request
    names, or any origin when the request names none or an empty one. *)
Theorem every_response_allows_the_origin
    (request : Request) (env : Timeline) (σ : Worker.DB) :
  exists resp σ',
    interp (WorkerStore.fetch request) env 0 σ = (inr resp, σ') /\
    header "Access-Control-Allow-Origin" (headers resp)
      = Some (WorkerStore.or_else (origin request) "*").
Proof.
  split_store_fetch request env σ; do 2 eexists; (split; [reflexivity|]);
    try reflexivity.
  unfold WorkerStore.handleOptions.
  destruct (origin request), (acr_method request), (acr_headers request); reflexivity.
Qed.

(** ** Status codes *)

(** In [onRequest] the status tells the outcome: 405 exactly for a
    method other than POST, 400 exactly for INVALID_INPUT, 500 exactly
    for SERVER_ERROR, and 200 for every other response. *)
Theorem onRequest_status_table (request : Request) (env : Timeline) (σ : Functions.DB) :
  exists resp σ',
    interp (Functions.onRequest request) env 0 σ = (inr resp, σ') /\
    (status resp = 405 <-> method request <> "POST") /\
    (status resp = 400 <-> code_of resp = Some (JStr "INVALID_INPUT")) /\
    (status resp = 500 <-> code_of resp = Some (JStr "SERVER_ERROR")) /\
    (status resp = 200 \/ status resp = 400 \/ status resp = 405 \/ status resp = 500).
Proof.
  split_onRequest request env σ; do 2 eexists; (split; [reflexivity|]); cbn;
    repeat split; intros; try discriminate; try contradiction; try reflexivity;
    try congruence; try (left; reflexivity); try (right; left; reflexivity);
    try (right; right; left; reflexivity); try (right; right; right; reflexivity).
Qed.

(** So it is in the first worker revision. *)
Theorem local_status_table (request : Request) (env : Timeline) (σ : Worker.DB) :
  exists resp σ',
    interp (WorkerLocal.fetch request) env 0 σ = (inr resp, σ') /\
    (status resp = 405 <-> method request <> "POST") /\
    (status resp = 400 <-> code_of resp = Some (JStr "INVALID_INPUT")) /\
    (status resp = 500 <-> code_of resp = Some (JStr "SERVER_ERROR")) /\
    (status resp = 200 \/ status resp = 400 \/ status resp = 405 \/ status resp = 500).
Proof.
  split_local_fetch request env σ; do 2 eexists; (split; [reflexivity|]); cbn;
    repeat split; intros; try discriminate; try contradiction; try reflexivity;
    try congruence; try (left; reflexivity); try (right; left; reflexivity);
    try (right; right; left; reflexivity); try (right; right; right; reflexivity).
Qed.

(** The second worker revision answers every POST with status 200,
    INVALID_INPUT and SERVER_ERROR included; only the method decides
    otherwise. *)
Theorem store_status_is_200_on_post (request : Request) (env : Timeline) (σ : Worker.DB) :
  exists resp σ',
    interp (WorkerStore.fetch request) env 0 σ = (inr resp, σ') /\
    (status resp = 405 <-> method request <> "POST" /\ method request <> "OPTIONS") /\
    (status resp = 200 <-> method request = "POST" \/ method request = "OPTIONS").
Proof.
  split_store_fetch request env σ; do 2 eexists; (split; [reflexivity|]);
    try (unfold WorkerStore.handleOptions;
         destruct (origin request), (acr_method request), (acr_headers request));
    cbn; repeat split; intros; try discriminate; try reflexivity; try tauto;
    try (destruct H; congruence); try congruence; exfalso; intuition congruence.
Qed.

(** ** The outcome of a well-formed request *)

(** [onRequest], for a POST whose body the schema accepts and a store
    that answers: the response code is decided by the row of the key,
    the store clock of the lookup and [Date.now()], and each code is
    given in exactly one case. *)
Theorem onRequest_outcome
    (request : Request) (env : Timeline) (σ : Functions.DB) (data : Json) (cardKey : string) :
  method request = "POST" ->
  body request = inr data ->
  Functions.CardValidationSchema_parse data = inr cardKey ->
  db_fault (env 0%nat) = None ->
  db_fault (env 3%nat) = None ->
  let found := Functions.card_keys σ !! cardKey in
  let clock := db_now (env 0%nat) in
  let now := js_now (env 1%nat) / 1000 in
  exists resp σ',
    interp (Functions.onRequest request) env 0 σ = (inr resp, σ') /\
    (code_of resp = Some (JStr "INVALID_CARD") <->
     forall row, found = Some row -> Functions.expires_at row <= clock) /\
    (code_of resp = Some (JStr "CARD_EXPIRED") <->
     exists row, found = Some row /\ Functions.is_used row = true /\
                 clock < Functions.expires_at row < now) /\
    (code_of resp = Some (JStr "SESSION_RENEWED") <->
     exists row, found = Some row /\ Functions.is_used row = true /\
                 clock < Functions.expires_at row /\ now <= Functions.expires_at row) /\
    (code_of resp = Some (JStr "ACTIVATION_SUCCESS") <->
     exists row, found = Some row /\ Functions.is_used row = false /\
                 clock < Functions.expires_at row).
Proof.
  intros Hpost Hbody Hkey Hup Hf3. cbn zeta.
  destruct (Functions.card_keys σ !! cardKey) as [row|] eqn:Hrow.
  - destruct (Functions.not_expired row (db_now (env 0%nat))) eqn:Hfilter.
    + pose proof (proj1 (not_expired_spec _ _) Hfilter) as Hlt.
      destruct (Functions.is_used row) eqn:Hu.
      * destruct (Z_lt_le_dec (Functions.expires_at row) (js_now (env 1%nat) / 1000))
          as [Hnow|Hnow].
        -- rewrite (onRequest_expired request env σ Hpost _ Hbody _ Hkey Hup _ Hrow Hfilter Hu Hnow).
           do 2 eexists. split; [reflexivity|]. cbn. repeat split; intros H; try discriminate.
           ++ specialize (H _ eq_refl). lia.
           ++ eauto.
           ++ destruct H as (r & Hr & _ & _ & Hle). inversion Hr; subst. lia.
           ++ destruct H as (r & Hr & Hn & _). inversion Hr; subst. congruence.
        -- rewrite (onRequest_renewed request env σ Hpost _ Hbody _ Hkey Hup _ Hrow Hfilter Hu Hnow).
           do 2 eexists. split; [reflexivity|]. cbn. repeat split; intros H; try discriminate.
           ++ specialize (H _ eq_refl). lia.
           ++ destruct H as (r & Hr & _ & _ & Hle). inversion Hr; subst. lia.
           ++ eauto.
           ++ destruct H as (r & Hr & Hn & _). inversion Hr; subst. congruence.
      * rewrite (onRequest_activated request env σ Hpost _ Hbody _ Hkey Hup _ Hrow Hfilter Hu Hf3).
        do 2 eexists. split; [reflexivity|]. cbn. repeat split; intros H; try discriminate.
        -- specialize (H _ eq_refl). lia.
        -- destruct H as (r & Hr & Hn & _). inversion Hr; subst. congruence.
        -- destruct H as (r & Hr & Hn & _). inversion Hr; subst. congruence.
        -- eauto.
    + assert (Hge : Functions.expires_at row <= db_now (env 0%nat)).
      { destruct (Z_lt_le_dec (db_now (env 0%nat)) (Functions.expires_at row)) as [Hlt|Hge];
          [|exact Hge].
        apply not_expired_spec in Hlt. congruence. }
      rewrite (onRequest_filtered request env σ Hpost _ Hbody _ Hkey Hup _ Hrow Hfilter).
      do 2 eexists. split; [reflexivity|]. cbn. repeat split; intros H; try discriminate.
      * intros r Hr. inversion Hr; subst. exact Hge.
      * destruct H as (r & Hr & _ & Hlt & _). inversion Hr; subst. lia.
      * destruct H as (r & Hr & _ & Hlt & _). inversion Hr; subst. lia.
      * destruct H as (r & Hr & _ & Hlt). inversion Hr; subst. lia.
  - rewrite (onRequest_not_found request env σ Hpost _ Hbody _ Hkey Hup Hrow).
    do 2 eexists. split; [reflexivity|]. cbn. repeat split; intros H; try discriminate.
    + destruct H as (r & Hr & _). discriminate.
    + destruct H as (r & Hr & _). discriminate.
    + destruct H as (r & Hr & _). discriminate.
Qed.

Lemma onRequest_outcome_witness :
  exists resp σ',
    interp (Functions.onRequest (post key16)) (frozen 2000 "t") 0
      (functions_store key16 {| Functions.expires_at := 5000; Functions.is_used := true;
                                Functions.activated_at := Some 1000 |}) = (inr resp, σ') /\
    code_of resp = Some (JStr "SESSION_RENEWED").
Proof.
  destruct (onRequest_outcome (post key16) (frozen 2000 "t")
              (functions_store key16 {| Functions.expires_at := 5000; Functions.is_used := true;
                                        Functions.activated_at := Some 1000 |})
              (JObj [("cardKey", JStr key16)]) key16
              eq_refl eq_refl eq_refl eq_refl eq_refl)
    as (resp & σ' & Hrun & _ & _ & Hrenewed & _).
  exists resp, σ'. split; [exact Hrun|].
  apply Hrenewed. eexists. split; [reflexivity|]. split; [reflexivity|].
  split; [reflexivity|]. vm_compute. discriminate.
Defined.

(** The second worker revision, for a POST whose body the schema
    accepts and a store that answers: the code is decided by the row of
    the key and the two readings of the store clock.  A used row is
    answered INVALID_CARD only in the one second in which its window
    ends, CARD_EXPIRED from the next second on. *)
Theorem store_fetch_outcome
    (request : Request) (env : Timeline) (σ : Worker.DB) (data : Json) (cardKey : string) :
  method request = "POST" ->
  body request = inr data ->
  Worker.CardValidationSchema_parse data = inr cardKey ->
  db_fault (env 0%nat) = None ->
  db_fault (env 1%nat) = None ->
  db_fault (env 3%nat) = None ->
  let found := Worker.card_keys σ !! cardKey in
  let looked_up := db_now (env 0%nat) in
  let current_time := db_now (env 1%nat) in
  let expires (row : Worker.Row) := Worker.js_number (Worker.first_used_at row) + 86400 in
  let selected (row : Worker.Row) :=
    found = Some row /\
    forall first, Worker.first_used_at row = Some first -> looked_up <> first + 86400 in
  exists resp σ',
    interp (WorkerStore.fetch request) env 0 σ = (inr resp, σ') /\
    (code_of resp = Some (JStr "INVALID_CARD") <-> forall row, ~ selected row) /\
    (code_of resp = Some (JStr "CARD_EXPIRED") <->
     exists row, selected row /\ Worker.is_used row = true /\ expires row < current_time) /\
    (code_of resp = Some (JStr "SESSION_RENEWED") <->
     exists row, selected row /\ Worker.is_used row = true /\ current_time <= expires row) /\
    (code_of resp = Some (JStr "ACTIVATION_SUCCESS") <->
     exists row, selected row /\ Worker.is_used row = false).
Proof.
  intros Hpost Hbody Hkey Hup Hclock Hf3. cbn zeta.
  destruct (Worker.card_keys σ !! cardKey) as [row|] eqn:Hrow.
  - destruct (WorkerStore.read_filter row (db_now (env 0%nat))) eqn:Hfilter.
    + assert (Hsel : forall first, Worker.first_used_at row = Some first ->
                                   db_now (env 0%nat) <> first + 86400).
      { intros first Hfirst. apply store_filter_spec in Hfilter.
        rewrite Hfirst in Hfilter. exact Hfilter. }
      destruct (Worker.is_used row) eqn:Hu.
      * destruct (Z_lt_le_dec (Worker.js_number (Worker.first_used_at row) + 86400)
                    (db_now (env 1%nat))) as [Hnow|Hnow].
        -- rewrite (store_expired request env σ Hpost _ Hbody _ Hkey Hup _ Hrow Hfilter Hclock Hu Hnow).
           do 2 eexists. split; [reflexivity|]. cbn. repeat split; intros H; try discriminate.
           ++ exfalso. apply (H row). split; [reflexivity|exact Hsel].
           ++ eauto 6.
           ++ destruct H as (r & [Hr _] & _ & Hle). inversion Hr; subst. lia.
           ++ destruct H as (r & [Hr _] & Hn). inversion Hr; subst. congruence.
        -- rewrite (store_renewed request env σ Hpost _ Hbody _ Hkey Hup _ Hrow Hfilter Hclock Hu Hnow).
           do 2 eexists. split; [reflexivity|]. cbn. repeat split; intros H; try discriminate.
           ++ exfalso. apply (H row). split; [reflexivity|exact Hsel].
           ++ destruct H as (r & [Hr _] & _ & Hle). inversion Hr; subst. lia.
           ++ eauto 6.
           ++ destruct H as (r & [Hr _] & Hn). inversion Hr; subst. congruence.
      * rewrite (store_activated request env σ Hpost _ Hbody _ Hkey Hup _ Hrow Hfilter Hclock Hu Hf3).
        do 2 eexists. split; [reflexivity|]. cbn. repeat split; intros H; try discriminate.
        -- exfalso. apply (H row). split; [reflexivity|exact Hsel].
        -- destruct H as (r & [Hr _] & Hn & _). inversion Hr; subst. congruence.
        -- destruct H as (r & [Hr _] & Hn & _). inversion Hr; subst. congruence.
        -- eauto 6.
    + assert (Hno : forall r, ~ (Some row = Some r /\
                forall first, Worker.first_used_at r = Some first ->
                              db_now (env 0%nat) <> first + 86400)).
      { intros r [Hr Hsel]. inversion Hr; subst r.
        assert (Ht : WorkerStore.read_filter row (db_now (env 0%nat)) = true).
        { apply store_filter_spec. destruct (Worker.first_used_at row) as [first|]; [|exact I].
          apply Hsel. reflexivity. }
        congruence. }
      rewrite (store_filtered request env σ Hpost _ Hbody _ Hkey Hup _ Hrow Hfilter).
      do 2 eexists. split; [reflexivity|]. cbn. repeat split; intros H; try discriminate.
      * exact Hno.
      * destruct H as (r & Hs & _). destruct (Hno r Hs).
      * destruct H as (r & Hs & _). destruct (Hno r Hs).
      * destruct H as (r & Hs & _). destruct (Hno r Hs).
  - rewrite (store_not_found request env σ Hpost _ Hbody _ Hkey Hup Hrow).
    do 2 eexists. split; [reflexivity|]. cbn. repeat split; intros H; try discriminate.
    + intros r [Hr _]. discriminate.
    + destruct H as (r & [Hr _] & _). discriminate.
    + destruct H as (r & [Hr _] & _). discriminate.
    + destruct H as (r & [Hr _] & _). discriminate.
Qed.

Lemma store_fetch_outcome_witness :
  exists resp σ',
    interp (WorkerStore.fetch (post key25)) (frozen 90000 "t") 0
      (worker_store key25 {| Worker.is_used := true; Worker.first_used_at := Some 1000 |})
      = (inr resp, σ') /\
    code_of resp = Some (JStr "CARD_EXPIRED").
Proof.
  destruct (store_fetch_outcome (post key25) (frozen 90000 "t")
              (worker_store key25 {| Worker.is_used := true; Worker.first_used_at := Some 1000 |})
              (JObj [("cardKey", JStr key25)]) key25
              eq_refl eq_refl eq_refl eq_refl eq_refl eq_refl)
    as (resp & σ' & Hrun & _ & Hexpired & _).
  exists resp, σ'. split; [exact Hrun|].
  apply Hexpired. eexists. split; [split; [reflexivity|]|].
  - intros first Hfirst. inversion Hfirst; subst. vm_compute. discriminate.
  - split; reflexivity.
Defined.


(** ** The two card key formats *)

Definition key_group (g : string) : Prop :=
  String.length g = 5%nat /\ all_upper_alnum g = true.

Lemma class_run_spec (n : nat) (s rest : string) :
  class_run n s = Some rest <->
  exists g, s = g +:+ rest /\ String.length g = n /\ all_upper_alnum g = true.
Proof.
  revert s. induction n as [|n IH]; intros s; cbn.
  - split.
    + intros [= ->]. exists "". auto.
    + intros (g & -> & Hl & _). destruct g; [reflexivity|discriminate].
  - destruct s as [|c s'].
    + split; [discriminate|]. intros (g & Hs & Hl & _). destruct g; discriminate.
    + destruct (upper_alnum c) eqn:Hc.
      * rewrite IH. split.
        -- intros (g & -> & Hl & Ha). exists (String c g). cbn. rewrite Hc, Ha, Hl. auto.
        -- intros (g & Hs & Hl & Ha). destruct g as [|c' g']; [discriminate|].
           cbn in Hs, Hl, Ha. inversion Hs; subst. apply andb_true_iff in Ha as [_ Ha].
           exists g'. repeat split; [congruence|exact Ha].
      * split; [discriminate|]. intros (g & Hs & Hl & Ha).
        destruct g as [|c' g']; [discriminate|].
        cbn in Hs, Ha. inversion Hs; subst. rewrite Hc in Ha. discriminate.
Qed.

Lemma group_dash_spec (s rest : string) :
  group_dash s = Some rest <-> exists g, s = g +:+ "-" +:+ rest /\ key_group g.
Proof.
  unfold group_dash, key_group. split.
  - destruct (class_run 5 s) as [r|] eqn:Hrun; [|discriminate].
    apply class_run_spec in Hrun as (g & -> & Hl & Ha).
    destruct r as [|c r]; [discriminate|]. cbn.
    destruct (Ascii.eqb_spec c "-") as [->|Hne].
    + intros [= ->]. eauto.
    + destruct c as [[] [] [] [] [] [] [] []]; try discriminate. contradiction.
  - intros (g & -> & Hl & Ha).
    assert (Hrun : class_run 5 (g +:+ "-" +:+ rest) = Some ("-" +:+ rest))
      by (apply class_run_spec; eauto).
    rewrite Hrun. reflexivity.
Qed.

Lemma string_length_app (a b : string) :
  String.length (a +:+ b) = (String.length a + String.length b)%nat.
Proof.
  induction a as [|c a IH]; [reflexivity|].
  change (S (String.length (a +:+ b)) = S (String.length a + String.length b)).
  rewrite IH. reflexivity.
Qed.

Lemma string_app_empty (a : string) : a +:+ "" = a.
Proof.
  induction a as [|c a IH]; [reflexivity|].
  change (String c (a +:+ "") = String c a). rewrite IH. reflexivity.
Qed.

(** The matcher of the workers' pattern accepts exactly five groups of
    five characters of [A-Z0-9] joined by dashes. *)
Theorem grouped_pattern_spec (s : string) :
  grouped_pattern s = true <->
  exists g1 g2 g3 g4 g5,
    s = Worker.join "-" [g1; g2; g3; g4; g5] /\ Forall key_group [g1; g2; g3; g4; g5].
Proof.
  unfold grouped_pattern, and_then. cbn [Worker.join]. split.
  - destruct (group_dash s) as [r1|] eqn:H1; [|discriminate].
    destruct (group_dash r1) as [r2|] eqn:H2; [|discriminate].
    destruct (group_dash r2) as [r3|] eqn:H3; [|discriminate].
    destruct (group_dash r3) as [r4|] eqn:H4; [|discriminate].
    destruct (class_run 5 r4) as [r5|] eqn:H5; [|discriminate].
    destruct r5; [|discriminate]. intros _.
    apply group_dash_spec in H1 as (g1 & -> & K1).
    apply group_dash_spec in H2 as (g2 & -> & K2).
    apply group_dash_spec in H3 as (g3 & -> & K3).
    apply group_dash_spec in H4 as (g4 & -> & K4).
    apply class_run_spec in H5 as (g5 & -> & K5).
    exists g1, g2, g3, g4, g5. split.
    + rewrite string_app_empty. reflexivity.
    + repeat (apply Forall_cons_2; [first [assumption | exact K5]|]). apply Forall_nil_2.
  - intros (g1 & g2 & g3 & g4 & g5 & -> & HF).
    inversion HF as [|? ? K1 HF1]; subst. inversion HF1 as [|? ? K2 HF2]; subst.
    inversion HF2 as [|? ? K3 HF3]; subst. inversion HF3 as [|? ? K4 HF4]; subst.
    inversion HF4 as [|? ? K5 _]; subst.
    rewrite (proj2 (group_dash_spec _ _) (ex_intro _ g1 (conj eq_refl K1))).
    rewrite (proj2 (group_dash_spec _ _) (ex_intro _ g2 (conj eq_refl K2))).
    rewrite (proj2 (group_dash_spec _ _) (ex_intro _ g3 (conj eq_refl K3))).
    rewrite (proj2 (group_dash_spec _ _) (ex_intro _ g4 (conj eq_refl K4))).
    assert (H5 : class_run 5 g5 = Some "").
    { apply class_run_spec. exists g5. destruct K5 as [Hl Ha]. repeat split; try assumption.
      symmetry. apply string_app_empty. }
    rewrite H5. reflexivity.
Qed.

(** What each schema accepts: [onRequest] takes an object whose
    [cardKey] is a string of exactly 16 characters of [A-Z0-9], the
    workers one whose [cardKey] is five dash-joined groups, 29
    characters in all.  No body is accepted by both. *)
Theorem schemas_accept (data : Json) (s : string) :
  let given :=
    exists fields, data = JObj fields /\ js_get "cardKey" fields = Some (JStr s) in
  (Functions.CardValidationSchema_parse data = inr s <->
   given /\ String.length s = 16%nat /\ all_upper_alnum s = true) /\
  (Worker.CardValidationSchema_parse data = inr s <->
   given /\ grouped_pattern s = true) /\
  (Worker.CardValidationSchema_parse data = inr s ->
   String.length s = 29%nat /\
   exists errors, Functions.CardValidationSchema_parse data = inl (ZodError errors)) /\
  (Functions.CardValidationSchema_parse data = inr s ->
   exists errors, Worker.CardValidationSchema_parse data = inl (ZodError errors)).
Proof.
  cbn zeta.
  assert (HF : Functions.CardValidationSchema_parse data = inr s <->
               (exists fields, data = JObj fields /\ js_get "cardKey" fields = Some (JStr s)) /\
               String.length s = 16%nat /\ all_upper_alnum s = true).
  { unfold Functions.CardValidationSchema_parse. split.
    - intros H. apply parse_cardKey_accepts in H as (Hc & fields & -> & Hget).
      split; [eauto|]. unfold Functions.cardKey_checks in Hc.
      destruct (Nat.eqb_spec (String.length s) 16) as [Hl|Hl]; [|discriminate].
      destruct (flat_pattern s) eqn:Hp; [|discriminate].
      split; [exact Hl|]. destruct s; [discriminate|exact Hp].
    - intros ((fields & -> & Hget) & Hl & Ha).
      unfold parse_cardKey, Functions.cardKey_checks. rewrite Hget, Hl.
      destruct s; [discriminate|]. unfold flat_pattern. rewrite Ha. reflexivity. }
  assert (HW : Worker.CardValidationSchema_parse data = inr s <->
               (exists fields, data = JObj fields /\ js_get "cardKey" fields = Some (JStr s)) /\
               grouped_pattern s = true).
  { unfold Worker.CardValidationSchema_parse. split.
    - intros H. apply parse_cardKey_accepts in H as (Hc & fields & -> & Hget).
      split; [eauto|]. unfold Worker.cardKey_checks in Hc.
      destruct (grouped_pattern s); [reflexivity|discriminate].
    - intros ((fields & -> & Hget) & Hp).
      unfold parse_cardKey, Worker.cardKey_checks. rewrite Hget, Hp. reflexivity. }
  assert (Hlen : grouped_pattern s = true -> String.length s = 29%nat).
  { intros Hp. apply grouped_pattern_spec in Hp as (g1 & g2 & g3 & g4 & g5 & -> & HG).
    inversion HG as [|? ? [L1 _] HG1]; subst. inversion HG1 as [|? ? [L2 _] HG2]; subst.
    inversion HG2 as [|? ? [L3 _] HG3]; subst. inversion HG3 as [|? ? [L4 _] HG4]; subst.
    inversion HG4 as [|? ? [L5 _] _]; subst.
    cbn [Worker.join]. rewrite !string_length_app, L1, L2, L3, L4, L5. reflexivity. }
  split; [exact HF|]. split; [exact HW|]. split.
  - intros H. apply HW in H as ((fields & -> & Hget) & Hp). apply Hlen in Hp.
    split; [exact Hp|]. apply (flat_key_rejected fields s Hget). left. rewrite Hp. discriminate.
  - intros H. apply HF in H as ((fields & -> & Hget) & Hl & Ha).
    apply (grouped_key_rejected fields s Hget).
    destruct (grouped_pattern s) eqn:Hp; [|reflexivity].
    rewrite (Hlen eq_refl) in Hl. discriminate.
Qed.

(** ** From activation to expiry *)

(** [onRequest]: a key activated when [Date.now()] read [activated]
    is served for 86400 seconds and no longer, whatever the 2592000
    seconds the activation announced: a later request is renewed with
    what is left of the 86400 seconds and turned away after them. *)
Theorem onRequest_key_lifetime
    (first later : Request) (env1 env2 : Timeline) (σ : Functions.DB)
    (data1 data2 : Json) (cardKey : string) (row : Functions.CardKey) :
  method first = "POST" -> body first = inr data1 ->
  Functions.CardValidationSchema_parse data1 = inr cardKey ->
  method later = "POST" -> body later = inr data2 ->
  Functions.CardValidationSchema_parse data2 = inr cardKey ->
  db_fault (env1 0%nat) = None -> db_fault (env1 3%nat) = None ->
  db_fault (env2 0%nat) = None ->
  Functions.card_keys σ !! cardKey = Some row ->
  Functions.is_used row = false ->
  db_now (env1 0%nat) < Functions.expires_at row ->
  let activated := js_now (env1 1%nat) / 1000 in
  let clock := db_now (env2 0%nat) in
  let now := js_now (env2 1%nat) / 1000 in
  exists r1 r2 σ',
    serve Functions.onRequest [(first, env1); (later, env2)] σ = ([inr r1; inr r2], σ') /\
    code_of r1 = Some (JStr "ACTIVATION_SUCCESS") /\
    expires_in_of r1 = Some (JNum 2592000) /\
    (activated + 86400 <= clock -> code_of r2 = Some (JStr "INVALID_CARD")) /\
    (clock < activated + 86400 < now -> code_of r2 = Some (JStr "CARD_EXPIRED")) /\
    (clock < activated + 86400 -> now <= activated + 86400 ->
     code_of r2 = Some (JStr "SESSION_RENEWED") /\
     expires_in_of r2 = Some (JNum (activated + 86400 - now))).
Proof.
  intros Hm1 Hb1 Hk1 Hm2 Hb2 Hk2 Hup1 Hf1 Hup2 Hrow Hu Hlive. cbn zeta.
  apply not_expired_spec in Hlive.
  rewrite serve_cons,
    (onRequest_activated first env1 σ Hm1 _ Hb1 _ Hk1 Hup1 _ Hrow Hlive Hu Hf1).
  cbn [fst snd].
  match goal with |- context [serve _ _ ?s] => set (σ1 := s) end.
  set (row1 := {| Functions.expires_at := js_now (env1 1%nat) / 1000 + 86400;
                  Functions.is_used := true;
                  Functions.activated_at := Some (js_now (env1 1%nat) / 1000) |}).
  assert (Hrow1 : Functions.card_keys σ1 !! cardKey = Some row1) by apply lookup_insert_eq.
  rewrite serve_cons.
  destruct (Functions.not_expired row1 (db_now (env2 0%nat))) eqn:Hfilter.
  - pose proof (proj1 (not_expired_spec _ _) Hfilter) as Hlt. cbn in Hlt.
    destruct (Z_lt_le_dec (Functions.expires_at row1) (js_now (env2 1%nat) / 1000))
      as [Hnow|Hnow].
    + rewrite (onRequest_expired later env2 σ1 Hm2 _ Hb2 _ Hk2 Hup2 _ Hrow1 Hfilter eq_refl Hnow).
      cbn in Hnow. do 3 eexists. split; [reflexivity|].
      repeat split; intros; try reflexivity; lia.
    + rewrite (onRequest_renewed later env2 σ1 Hm2 _ Hb2 _ Hk2 Hup2 _ Hrow1 Hfilter eq_refl Hnow).
      cbn in Hnow. do 3 eexists. split; [reflexivity|].
      repeat split; intros; try reflexivity; lia.
  - assert (Hge : js_now (env1 1%nat) / 1000 + 86400 <= db_now (env2 0%nat)).
    { destruct (Z_lt_le_dec (db_now (env2 0%nat)) (js_now (env1 1%nat) / 1000 + 86400))
        as [Hlt|Hge]; [|exact Hge].
      apply (not_expired_spec row1) in Hlt. congruence. }
    rewrite (onRequest_filtered later env2 σ1 Hm2 _ Hb2 _ Hk2 Hup2 _ Hrow1 Hfilter).
    do 3 eexists. split; [reflexivity|].
    repeat split; intros; try reflexivity; lia.
Qed.

Lemma onRequest_key_lifetime_witness :
  exists r1 r2 σ',
    serve Functions.onRequest
      [(post key16, frozen 1000 "a"); (post key16, frozen (1000 + 2 * 86400) "b")]
      (functions_store key16 {| Functions.expires_at := 5000; Functions.is_used := false;
                                Functions.activated_at := None |})
      = ([inr r1; inr r2], σ') /\
    expires_in_of r1 = Some (JNum 2592000) /\
    code_of r2 = Some (JStr "INVALID_CARD").
Proof.
  destruct (onRequest_key_lifetime (post key16) (post key16)
              (frozen 1000 "a") (frozen (1000 + 2 * 86400) "b")
              (functions_store key16 {| Functions.expires_at := 5000; Functions.is_used := false;
                                        Functions.activated_at := None |})
              (JObj [("cardKey", JStr key16)]) (JObj [("cardKey", JStr key16)]) key16
              {| Functions.expires_at := 5000; Functions.is_used := false;
                 Functions.activated_at := None |}
              eq_refl eq_refl eq_refl eq_refl eq_refl eq_refl eq_refl eq_refl eq_refl
              eq_refl eq_refl eq_refl)
    as (r1 & r2 & σ' & Hrun & _ & Hannounced & Hgone & _).
  exists r1, r2, σ'. split; [exact Hrun|]. split; [exact Hannounced|].
  apply Hgone. vm_compute. discriminate.
Defined.

(** The second worker revision: the window runs from the store time of
    the update.  A later request is renewed with what is left of it,
    answered CARD_EXPIRED after it, and answered INVALID_CARD when its
    lookup falls in the very second the window ends. *)
Theorem store_key_lifetime
    (first later : Request) (env1 env2 : Timeline) (σ : Worker.DB)
    (data1 data2 : Json) (cardKey : string) (row : Worker.Row) :
  method first = "POST" -> body first = inr data1 ->
  Worker.CardValidationSchema_parse data1 = inr cardKey ->
  method later = "POST" -> body later = inr data2 ->
  Worker.CardValidationSchema_parse data2 = inr cardKey ->
  db_fault (env1 0%nat) = None -> db_fault (env1 1%nat) = None ->
  db_fault (env1 3%nat) = None ->
  db_fault (env2 0%nat) = None -> db_fault (env2 1%nat) = None ->
  Worker.card_keys σ !! cardKey = Some row ->
  Worker.is_used row = false ->
  Worker.first_used_at row = None ->
  let activated := db_now (env1 3%nat) in
  let looked_up := db_now (env2 0%nat) in
  let current_time := db_now (env2 1%nat) in
  exists r1 r2 σ',
    serve WorkerStore.fetch [(first, env1); (later, env2)] σ = ([inr r1; inr r2], σ') /\
    code_of r1 = Some (JStr "ACTIVATION_SUCCESS") /\
    expires_in_of r1 = Some (JNum 86400) /\
    (looked_up = activated + 86400 -> code_of r2 = Some (JStr "INVALID_CARD")) /\
    (looked_up <> activated + 86400 -> activated + 86400 < current_time ->
     code_of r2 = Some (JStr "CARD_EXPIRED")) /\
    (looked_up <> activated + 86400 -> current_time <= activated + 86400 ->
     code_of r2 = Some (JStr "SESSION_RENEWED") /\
     expires_in_of r2 = Some (JNum (activated + 86400 - current_time))).
Proof.
  intros Hm1 Hb1 Hk1 Hm2 Hb2 Hk2 Hup1 Hc1 Hf1 Hup2 Hc2 Hrow Hu Hnone. cbn zeta.
  assert (Hpass : WorkerStore.read_filter row (db_now (env1 0%nat)) = true)
    by (apply store_filter_spec; rewrite Hnone; exact I).
  rewrite serve_cons,
    (store_activated first env1 σ Hm1 _ Hb1 _ Hk1 Hup1 _ Hrow Hpass Hc1 Hu Hf1).
  cbn [fst snd].
  match goal with |- context [serve _ _ ?s] => set (σ1 := s) end.
  set (row1 := {| Worker.is_used := true;
                  Worker.first_used_at := Some (db_now (env1 3%nat)) |}).
  assert (Hrow1 : Worker.card_keys σ1 !! cardKey = Some row1) by apply lookup_insert_eq.
  rewrite serve_cons.
  destruct (WorkerStore.read_filter row1 (db_now (env2 0%nat))) eqn:Hfilter.
  - pose proof (proj1 (store_filter_spec _ _) Hfilter) as Hne. cbn in Hne.
    destruct (Z_lt_le_dec (Worker.js_number (Worker.first_used_at row1) + 86400)
                (db_now (env2 1%nat))) as [Hnow|Hnow].
    + rewrite (store_expired later env2 σ1 Hm2 _ Hb2 _ Hk2 Hup2 _ Hrow1 Hfilter Hc2 eq_refl Hnow).
      cbn in Hnow. do 3 eexists. split; [reflexivity|].
      repeat split; intros; try reflexivity; try contradiction; lia.
    + rewrite (store_renewed later env2 σ1 Hm2 _ Hb2 _ Hk2 Hup2 _ Hrow1 Hfilter Hc2 eq_refl Hnow).
      cbn in Hnow. do 3 eexists. split; [reflexivity|].
      repeat split; intros; try reflexivity; try contradiction; lia.
  - assert (Heq : db_now (env2 0%nat) = db_now (env1 3%nat) + 86400).
    { destruct (decide (db_now (env2 0%nat) = db_now (env1 3%nat) + 86400)) as [Heq|Hne];
        [exact Heq|].
      assert (Ht : WorkerStore.read_filter row1 (db_now (env2 0%nat)) = true)
        by (apply store_filter_spec; exact Hne).
      congruence. }
    rewrite (store_filtered later env2 σ1 Hm2 _ Hb2 _ Hk2 Hup2 _ Hrow1 Hfilter).
    do 3 eexists. split; [reflexivity|].
    repeat split; intros; try reflexivity; try contradiction; lia.
Qed.

Lemma store_key_lifetime_witness :
  exists r1 r2 σ',
    serve WorkerStore.fetch
      [(post key25, frozen 1000 "a"); (post key25, frozen (1000 + 86400) "b")]
      (worker_store key25 {| Worker.is_used := false; Worker.first_used_at := None |})
      = ([inr r1; inr r2], σ') /\
    code_of r1 = Some (JStr "ACTIVATION_SUCCESS") /\
    code_of r2 = Some (JStr "INVALID_CARD").
Proof.
  destruct (store_key_lifetime (post key25) (post key25)
              (frozen 1000 "a") (frozen (1000 + 86400) "b")
              (worker_store key25 {| Worker.is_used := false; Worker.first_used_at := None |})
              (JObj [("cardKey", JStr key25)]) (JObj [("cardKey", JStr key25)]) key25
              {| Worker.is_used := false; Worker.first_used_at := None |}
              eq_refl eq_refl eq_refl eq_refl eq_refl eq_refl eq_refl eq_refl eq_refl
              eq_refl eq_refl eq_refl eq_refl eq_refl)
    as (r1 & r2 & σ' & Hrun & Hcode & _ & Hgone & _).
  exists r1, r2, σ'. split; [exact Hrun|]. split; [exact Hcode|].
  apply Hgone. reflexivity.
Defined.

(** ** What a SERVER_ERROR response tells *)

(** [onRequest] answers every failure with one fixed SERVER_ERROR
    response.  The second worker revision puts the message of the
    error it caught into the response: that of the body parser or of
    the store statement that failed. *)
Theorem server_error_message :
  (forall (request : Request) (env : Timeline) (σ σ' : Functions.DB) (resp : Response),
      interp (Functions.onRequest request) env 0 σ = (inr resp, σ') ->
      code_of resp = Some (JStr "SERVER_ERROR") ->
      resp = Functions.server_error) /\
  (forall (request : Request) (env : Timeline) (σ σ' : Worker.DB) (resp : Response),
      interp (WorkerStore.fetch request) env 0 σ = (inr resp, σ') ->
      code_of resp = Some (JStr "SERVER_ERROR") ->
      exists msg,
        response_field "message" resp = Some (JStr ("验证过程中发生错误: " +:+ msg)) /\
        (body request = inl msg \/ db_fault (env 0%nat) = Some msg \/
         db_fault (env 1%nat) = Some msg \/ db_fault (env 3%nat) = Some msg)).
Proof.
  split.
  - intros request env σ σ' resp. split_onRequest request env σ; intros Hrun Hcode;
      inversion Hrun; subst; try discriminate; reflexivity.
  - intros request env σ σ' resp. split_store_fetch request env σ; intros Hrun Hcode;
      inversion Hrun; subst; try discriminate;
      try (eexists; split; [reflexivity|]; tauto).
    exfalso. clear -Hcode. unfold WorkerStore.handleOptions in Hcode.
    destruct (origin request), (acr_method request), (acr_headers request); discriminate.
Qed.

Lemma server_error_message_witness :
  let down : Timeline :=
    fun _ => {| db_now := 1000; db_fault := Some "D1_ERROR: no such table: card_keys";
                js_now := 1000000; uuid := "t" |} in
  (interp (Functions.onRequest (post key16)) down 0 functions_empty).1
    = inr Functions.server_error /\
  exists resp,
    (interp (WorkerStore.fetch (post key25)) down 0 worker_empty).1 = inr resp /\
    response_field "message" resp
      = Some (JStr "验证过程中发生错误: D1_ERROR: no such table: card_keys").
Proof.
  intros down. destruct server_error_message as [HF HS]. split.
  - exact (f_equal (@inr Exn Response)
             (HF (post key16) down functions_empty _ _ eq_refl eq_refl)).
  - destruct (HS (post key25) down worker_empty _ _ eq_refl eq_refl) as (msg & Hmsg & Hwhy).
    eexists. split; [reflexivity|].
    destruct Hwhy as [H|[H|[H|H]]]; inversion H; subst; exact Hmsg.
Defined.

(** ** The [sha256] helper *)

(** [n.toString(16)] of a non-negative integer *)
Definition toString16 (n : N) : string :=
  HexadecimalString.NilZero.string_of_uint (N.to_hex_uint n).

(** The first [n] characters of [fill] repeated, [cur] being what is
    left of the current repetition *)
Fixpoint padding (n : nat) (fill cur : string) : string :=
  match n with
  | O => ""
  | S n' =>
      match cur with
      | String c cur' => String c (padding n' fill cur')
      | EmptyString =>
          match fill with
          | String c fill' => String c (padding n' fill fill')
          | EmptyString => ""
          end
      end
  end.

(** [s.padStart(targetLength, fill)] *)
Definition padStart (targetLength : nat) (fill : string) (s : string) : string :=
  padding (targetLength - String.length s) fill fill +:+ s.

(** [hashArray.map(b => b.toString(16).padStart(2, '0')).join('')] *)
Definition hex_of_bytes (hashArray : list Byte.byte) : string :=
  Worker.join "" (map (fun b => padStart 2 "0" (toString16 (Byte.to_N b))) hashArray).

Section Sha256.
(** [new TextEncoder().encode] and [crypto.subtle.digest('SHA-256', _)] *)
Variable encode : string -> list Byte.byte.
Variable digest : list Byte.byte -> list Byte.byte.

Definition sha256 (message : string) : string :=
  hex_of_bytes (digest (encode message)).
End Sha256.

(** Reading a hexadecimal string back, two digits a byte *)
Definition hex_value (c : ascii) : option N :=
  let n := N_of_ascii c in
  if (48 <=? n)%N && (n <=? 57)%N then Some (n - 48)%N
  else if (97 <=? n)%N && (n <=? 102)%N then Some (n - 87)%N
  else None.

Fixpoint bytes_of_hex (s : string) : option (list Byte.byte) :=
  match s with
  | EmptyString => Some []
  | String hi (String lo rest) =>
      match hex_value hi, hex_value lo, bytes_of_hex rest with
      | Some h, Some l, Some bytes =>
          match Byte.of_N (16 * h + l) with
          | Some b => Some (b :: bytes)
          | None => None
          end
      | _, _, _ => None
      end
  | String _ EmptyString => None
  end.

(** The character class [[0-9a-f]] *)
Definition lower_hex (c : ascii) : bool := bool_decide (is_Some (hex_value c)).

Fixpoint all_lower_hex (s : string) : bool :=
  match s with
  | EmptyString => true
  | String c rest => lower_hex c && all_lower_hex rest
  end.

Lemma byte_hex_digits (b : Byte.byte) :
  exists hi lo h l,
    padStart 2 "0" (toString16 (Byte.to_N b)) = String hi (String lo "") /\
    hex_value hi = Some h /\ hex_value lo = Some l /\
    Byte.of_N (16 * h + l) = Some b.
Proof. destruct b; do 4 eexists; repeat split; vm_compute; reflexivity. Qed.

Lemma join_empty_cons (x : string) (l : list string) :
  Worker.join "" (x :: l) = x +:+ Worker.join "" l.
Proof.
  destruct l as [|y l]; cbn [Worker.join]; [|reflexivity].
  symmetry. apply string_app_empty.
Qed.

Lemma hex_of_bytes_cons (b : Byte.byte) (bytes : list Byte.byte) :
  hex_of_bytes (b :: bytes) = padStart 2 "0" (toString16 (Byte.to_N b)) +:+ hex_of_bytes bytes.
Proof. unfold hex_of_bytes. rewrite map_cons. apply join_empty_cons. Qed.

(** [sha256] returns two characters of [0-9a-f] for each byte of the
    digest, and the digest can be read back from them: two messages
    get the same string only when their digests are equal. *)
Theorem sha256_is_the_digest_in_hex
    (encode : string -> list Byte.byte) (digest : list Byte.byte -> list Byte.byte)
    (message : string) :
  let hash := sha256 encode digest message in
  String.length hash = (2 * List.length (digest (encode message)))%nat /\
  all_lower_hex hash = true /\
  bytes_of_hex hash = Some (digest (encode message)) /\
  forall other, sha256 encode digest other = hash ->
                digest (encode other) = digest (encode message).
Proof.
  cbn zeta. unfold sha256.
  assert (H : forall bytes,
             String.length (hex_of_bytes bytes) = (2 * List.length bytes)%nat /\
             all_lower_hex (hex_of_bytes bytes) = true /\
             bytes_of_hex (hex_of_bytes bytes) = Some bytes).
  { induction bytes as [|b bytes (IHl & IHa & IHb)]; [repeat split|].
    rewrite hex_of_bytes_cons.
    destruct (byte_hex_digits b) as (hi & lo & h & l & -> & Hhi & Hlo & Hb).
    change (String hi (String lo "") +:+ hex_of_bytes bytes)
      with (String hi (String lo (hex_of_bytes bytes))).
    cbn [String.length all_lower_hex bytes_of_hex List.length].
    rewrite IHl, IHa, IHb, Hhi, Hlo, Hb. unfold lower_hex. rewrite Hhi, Hlo.
    repeat split. lia. }
  destruct (H (digest (encode message))) as (Hl & Ha & Hb).
  repeat split; try assumption.
  intros other Heq. destruct (H (digest (encode other))) as (_ & _ & Hb').
  rewrite Heq, Hb in Hb'. congruence.
Qed.

(** ** The stored expiry of [onRequest] *)

(** A used row carries its activation time, and expires 86400 seconds
    after it. *)
Definition functions_stamped (σ : Functions.DB) : Prop :=
  forall key row,
    Functions.card_keys σ !! key = Some row ->
    Functions.is_used row = true ->
    exists activated,
      Functions.activated_at row = Some activated /\
      Functions.expires_at row = activated + 86400.

(** Every update the program may still run stores an expiry 86400
    seconds after the activation time it stores. *)
Fixpoint stamps_a_day {A : Type} (p : Prog Functions.Query A) : Prop :=
  match p with
  | Await q k =>
      match q with
      | Functions.ActivateCard activated expires _ => expires = activated + 86400
      | Functions.SelectCard _ => True
      end /\ forall r, stamps_a_day (k r)
  | DateNow k => forall ms, stamps_a_day (k ms)
  | RandomUUID k => forall token, stamps_a_day (k token)
  | Ret _ | Throw _ => True
  end.

Lemma onRequest_stamps_a_day (request : Request) :
  stamps_a_day (Functions.onRequest request).
Proof.
  unfold Functions.onRequest, request_json.
  destruct (negb (String.eqb (method request) "POST")); [exact I|].
  destruct (body request) as [msg|data]; [exact I|]. simpl_run.
  destruct (Functions.CardValidationSchema_parse data) as [[errors|msg]|cardKey];
    [exact I|exact I|]. simpl_run.
  split; [exact I|]. intros [[errors|msg]|[row|]]; simpl_run; try exact I.
  intros ms. destruct (Functions.is_used row); simpl_run.
  - destruct (ms / 1000 >? Functions.expires_at row); simpl_run; [exact I|].
    intros token. exact I.
  - intros token. split; [reflexivity|]. intros [[errors|msg]|[]]; exact I.
Qed.

Lemma step_stamps_a_day {A : Type} (p : Prog Functions.Query A) (i : Instant)
    (σ : Functions.DB) :
  stamps_a_day p -> functions_stamped σ ->
  stamps_a_day (step p i σ).1 /\ functions_stamped (step p i σ).2.
Proof.
  intros Hp Hσ. destruct p as [a|e|X q k|k|k]; cbn; auto.
  destruct Hp as [Hq Hk]. unfold perform.
  destruct (db_fault i) as [msg|]; [split; [apply Hk|exact Hσ]|].
  destruct q as [cardKey|activated expires cardKey]; cbn; (split; [apply Hk|]).
  - exact Hσ.
  - subst expires. intros key row. cbn.
    destruct (decide (cardKey = key)) as [->|Hne].
    + rewrite lookup_alter_eq.
      destruct (Functions.card_keys σ !! key); [|discriminate].
      intros [= <-] _. eauto.
    + rewrite lookup_alter_ne by done. apply Hσ.
Qed.

Lemma pool_run_stamps_a_day {A : Type} (ps : list (Prog Functions.Query A))
    (sched : list (nat * Instant)) (σ : Functions.DB) :
  Forall stamps_a_day ps -> functions_stamped σ ->
  functions_stamped (pool_run ps sched σ).2.
Proof.
  revert ps σ. induction sched as [|s sched IH]; intros ps σ Hps Hσ; cbn; [exact Hσ|].
  unfold pool_step. destruct (ps !! s.1) as [p|] eqn:Hp; [|apply IH; assumption].
  destruct (step_stamps_a_day p s.2 σ (proj1 (Forall_lookup _ _) Hps _ _ Hp) Hσ) as [Hp' Hσ'].
  destruct (step p s.2 σ) as [p' σ']. apply IH; [|exact Hσ'].
  apply Forall_insert; assumption.
Qed.

(** In [onRequest], every used row expires exactly 86400 seconds after
    the activation time it records, provided the rows used at the
    outset do: no interleaving of requests breaks it. *)
Theorem used_rows_expire_a_day_after_activation
    (requests : list Request) (sched : list (nat * Instant)) (σ : Functions.DB) :
  functions_stamped σ ->
  functions_stamped (pool_run (map Functions.onRequest requests) sched σ).2.
Proof.
  apply pool_run_stamps_a_day. apply Forall_forall. intros p Hp.
  apply list_elem_of_fmap in Hp as (request & -> & _). apply onRequest_stamps_a_day.
Qed.

Lemma used_rows_expire_a_day_after_activation_witness :
  let tick (t : Z) : Instant :=
    {| db_now := t; db_fault := None; js_now := t * 1000; uuid := "t" |} in
  let σ' :=
    (pool_run (map Functions.onRequest [post key16; post key16])
       [(0%nat, tick 1000); (1%nat, tick 1001); (0%nat, tick 1002); (1%nat, tick 1003);
        (0%nat, tick 1004); (1%nat, tick 1005); (0%nat, tick 1006); (1%nat, tick 1007)]
       (functions_store key16 {| Functions.expires_at := 5000; Functions.is_used := false;
                                 Functions.activated_at := None |})).2 in
  functions_stamped σ' /\
  Functions.card_keys σ' !! key16
    = Some {| Functions.expires_at := 1003 + 86400; Functions.is_used := true;
              Functions.activated_at := Some 1003 |}.
Proof.
  cbn zeta. split; [|reflexivity].
  apply used_rows_expire_a_day_after_activation.
  intros key row Hrow Hused. cbn in Hrow.
  apply lookup_singleton_Some in Hrow as [_ <-]. discriminate.
Defined.
